(** * System-POS: the inventory ledger, document numbering, audit trigger
      and cart arithmetic, embedded from [database/pos_schema.sql] (PL/pgSQL)
      and from the POS module of the browser frontend (JavaScript).

    Conventions of the embedding.
    - A SQL table is a list of rows in insertion order; a [SELECT ... INTO]
      takes the first matching row.
    - A [UUID] is a natural number; [uuid_nil()] is 0 and
      [uuid_generate_v4()] draws from a counter kept in the database state.
    - A [DECIMAL(15,3)] quantity is the integer count of its thousandths and a
      [DECIMAL(15,4)] cost the integer count of its ten-thousandths; a
      [DECIMAL] argument is taken on the grid and inside the precision of the
      column it is written to, and foreign keys are taken to reference
      existing rows, so the store rounds nothing and raises no constraint
      error.
    - A nullable column or variable is an [option].
    - JavaScript numbers of the cart are exact rationals ([Q]); item counts
      are integers. *)

From Stdlib Require Import ZArith QArith Qminmax Lia Ascii String.
From Stdlib Require PrimFloat.
From stdpp Require Import gmap strings list fin_maps pretty.

Local Open Scope Z_scope.

(** ** Values shared by the SQL functions *)

Definition uuid := N.
Definition uuid_nil : uuid := 0%N.
Definition timestamptz := Z.

(** [COALESCE(x, d)] *)
Definition coalesce {A} (x : option A) (d : A) : A :=
  match x with Some a => a | None => d end.

(** ** The stock ledger: tables [inventory] and [stock_movements],
       function [update_inventory] *)
Module Ledger.

(** [CREATE TYPE stock_movement_type AS ENUM (...)] *)
Inductive stock_movement_type :=
  | mt_in | mt_out | mt_transfer | mt_adjustment | mt_sale | mt_return
  | mt_work_order.

(** One row of [inventory]. [available_quantity] is the stored generated
    column; [quantity], [reserved_quantity] count thousandths. *)
Record inventory_row := mk_inventory {
  inv_id : uuid;
  inv_warehouse_id : uuid;
  inv_item_id : uuid;
  inv_variant_id : option uuid;
  quantity : Z;
  reserved_quantity : Z;
  available_quantity : Z;
  avg_cost : option Z;
  last_restock_at : option timestamptz;
  last_sold_at : option timestamptz;
  inv_created_at : timestamptz;
  inv_updated_at : timestamptz
}.

(** One row of [stock_movements]. *)
Record stock_movement := mk_movement {
  sm_id : uuid;
  sm_warehouse_id : uuid;
  sm_item_id : uuid;
  sm_variant_id : option uuid;
  movement_type : stock_movement_type;
  reference_type : option string;
  reference_id : option uuid;
  sm_quantity : Z;
  unit_cost : option Z;
  quantity_before : Z;
  quantity_after : Z;
  notes : option string;
  created_by : option uuid;
  sm_created_at : timestamptz
}.

(** The part of the database [update_inventory] reads and writes, with the
    supply of fresh identifiers and the transaction's [NOW()]. *)
Record database := mk_db {
  inventory : list inventory_row;
  stock_movements : list stock_movement;
  next_uuid : uuid;
  now : timestamptz
}.

Definition empty_db (t : timestamptz) : database := mk_db [] [] 1%N t.

(** The [WHERE] clause of the lookup:
    [warehouse_id = p_warehouse_id AND item_id = p_item_id AND
     COALESCE(variant_id, uuid_nil()) = COALESCE(p_variant_id, uuid_nil())]. *)
Definition same_key (w i : uuid) (v : option uuid) (w' i' : uuid)
    (v' : option uuid) : bool :=
  (w =? w')%N && (i =? i')%N && (coalesce v uuid_nil =? coalesce v' uuid_nil)%N.

Definition key_of_row (w i : uuid) (v : option uuid) (r : inventory_row) : bool :=
  same_key (inv_warehouse_id r) (inv_item_id r) (inv_variant_id r) w i v.

Definition key_of_movement (w i : uuid) (v : option uuid) (m : stock_movement) : bool :=
  same_key (sm_warehouse_id m) (sm_item_id m) (sm_variant_id m) w i v.

(** [SELECT id, quantity INTO ... FROM inventory WHERE ...] *)
Definition select_inventory (inv : list inventory_row) (w i : uuid)
    (v : option uuid) : option inventory_row :=
  List.find (key_of_row w i v) inv.

(** What the store does to a row it writes: the generated column
    [available_quantity GENERATED ALWAYS AS (quantity - reserved_quantity) STORED]
    is recomputed. *)
Definition store_row (r : inventory_row) : inventory_row :=
  mk_inventory (inv_id r) (inv_warehouse_id r) (inv_item_id r) (inv_variant_id r)
    (quantity r) (reserved_quantity r)
    (quantity r - reserved_quantity r)
    (avg_cost r) (last_restock_at r) (last_sold_at r)
    (inv_created_at r) (inv_updated_at r).

(** [INSERT INTO inventory (warehouse_id, item_id, variant_id, quantity)
     VALUES (..., 0) RETURNING id]: the other columns take their defaults
    ([reserved_quantity] 0, [avg_cost] 0, the timestamps [NOW()]). *)
Definition insert_inventory (db : database) (w i : uuid) (v : option uuid)
    (q : Z) : database * uuid :=
  let id := next_uuid db in
  let r := store_row
    (mk_inventory id w i v q 0 0 (Some 0) None None (now db) (now db)) in
  (mk_db (inventory db ++ [r]) (stock_movements db) (N.succ id) (now db), id).

(** [SET quantity = q, updated_at = NOW()] on one row. *)
Definition set_quantity (q : Z) (t : timestamptz) (r : inventory_row) : inventory_row :=
  store_row
    (mk_inventory (inv_id r) (inv_warehouse_id r) (inv_item_id r) (inv_variant_id r)
       q (reserved_quantity r) (available_quantity r)
       (avg_cost r) (last_restock_at r) (last_sold_at r)
       (inv_created_at r) t).

(** [UPDATE inventory SET quantity = q, updated_at = NOW() WHERE id = id].
    (The [BEFORE UPDATE] trigger [update_updated_at] writes the same
    [updated_at]; the audit trigger is embedded on its own in [Audit].) *)
Definition update_quantity (db : database) (id : uuid) (q : Z) : database :=
  mk_db
    (List.map (fun r => if (inv_id r =? id)%N then set_quantity q (now db) r else r)
       (inventory db))
    (stock_movements db) (next_uuid db) (now db).

(** [INSERT INTO stock_movements (...) VALUES (...) RETURNING id] *)
Definition insert_movement (db : database) (w i : uuid) (v : option uuid)
    (mt : stock_movement_type) (rt : option string) (rid : option uuid)
    (q : Z) (uc : option Z) (qb qa : Z) (user : option uuid) : database * uuid :=
  let id := next_uuid db in
  let m := mk_movement id w i v mt rt rid q uc qb qa None user (now db) in
  (mk_db (inventory db) (stock_movements db ++ [m]) (N.succ id) (now db), id).

(** [update_inventory(p_warehouse_id, p_item_id, p_variant_id, p_quantity,
     p_movement_type, p_reference_type, p_reference_id, p_unit_cost,
     p_user_id) RETURNS UUID] *)
Definition update_inventory (db : database)
    (p_warehouse_id p_item_id : uuid) (p_variant_id : option uuid)
    (p_quantity : Z) (p_movement_type : stock_movement_type)
    (p_reference_type : option string) (p_reference_id : option uuid)
    (p_unit_cost : option Z) (p_user_id : option uuid) : database * uuid :=
  (* Get or create inventory record *)
  let '(db1, v_inventory_id, v_qty_before) :=
    match select_inventory (inventory db) p_warehouse_id p_item_id p_variant_id with
    | Some r => (db, inv_id r, quantity r)
    | None =>
        let '(db', id) :=
          insert_inventory db p_warehouse_id p_item_id p_variant_id 0 in
        (db', id, 0)
    end in
  (* Calculate new quantity *)
  let v_qty_after := v_qty_before + p_quantity in
  (* Update inventory *)
  let db2 := update_quantity db1 v_inventory_id v_qty_after in
  (* Record movement *)
  insert_movement db2 p_warehouse_id p_item_id p_variant_id p_movement_type
    p_reference_type p_reference_id p_quantity p_unit_cost
    v_qty_before v_qty_after p_user_id.

(** The on-hand quantity the ledger holds for a key: the row's, or 0 when
    the row does not exist yet (it is created with quantity 0). *)
Definition on_hand (db : database) (w i : uuid) (v : option uuid) : Z :=
  match select_inventory (inventory db) w i v with
  | Some r => quantity r
  | None => 0
  end.

(** The movements of one inventory key, oldest first. *)
Definition movements_of (db : database) (w i : uuid) (v : option uuid)
    : list stock_movement :=
  List.filter (key_of_movement w i v) (stock_movements db).


(** A call of [update_inventory], as data, and a sequence of calls run one
    after the other. *)
Record call := mk_call {
  c_warehouse_id : uuid;
  c_item_id : uuid;
  c_variant_id : option uuid;
  c_quantity : Z;
  c_movement_type : stock_movement_type;
  c_reference_type : option string;
  c_reference_id : option uuid;
  c_unit_cost : option Z;
  c_user_id : option uuid
}.

Definition run_call (db : database) (c : call) : database :=
  fst (update_inventory db (c_warehouse_id c) (c_item_id c) (c_variant_id c)
         (c_quantity c) (c_movement_type c) (c_reference_type c)
         (c_reference_id c) (c_unit_cost c) (c_user_id c)).

Definition run_calls (db : database) (cs : list call) : database :=
  List.fold_left run_call cs db.

(** The identifiers of the [inventory] rows are pairwise distinct
    ([id UUID PRIMARY KEY]) and were all drawn from the supply. *)
Definition ids_ok (db : database) : Prop :=
  NoDup (List.map inv_id (inventory db)) /\
  Forall (fun r => (inv_id r < next_uuid db)%N) (inventory db).


(** The invariant of the generated column, on every row of the table. *)
Definition available_ok (db : database) : Prop :=
  Forall (fun r => available_quantity r = quantity r - reserved_quantity r)
    (inventory db).

(** The weighted-average cost of the specification, on the fixed-point
    representation: quantities in thousandths, costs in ten-thousandths. *)
Definition spec_weighted_avg_cost (oldQty oldAvgCost inQty unitCost : Z) : Z :=
  (oldQty * oldAvgCost + inQty * unitCost) / (oldQty + inQty).

(** The [avg_cost] the ledger holds for a key ([None]: no row, or SQL NULL). *)
Definition avg_cost_of (db : database) (w i : uuid) (v : option uuid) : option Z :=
  match select_inventory (inventory db) w i v with
  | Some r => avg_cost r
  | None => None
  end.

(** The row update of [update_inventory], on one row. *)
Definition touch (id : uuid) (q : Z) (t : timestamptz) (r : inventory_row)
    : inventory_row :=
  if (inv_id r =? id)%N then set_quantity q t r else r.

(** The row a call creates when the key has none. *)
Definition fresh_row (db : database) (w i : uuid) (v : option uuid) : inventory_row :=
  mk_inventory (next_uuid db) w i v 0 0 0 (Some 0) None None (now db) (now db).

(** Two example databases: one row of 5.000 units at average cost 0, and
    one row of 10.000 units at average cost 100.0000. *)
Definition example_db : database :=
  mk_db [mk_inventory 1%N 1%N 1%N None 5000 0 5000 (Some 0) None None 0 0]
    [] 2%N 0.

Definition example_costed_db : database :=
  mk_db [mk_inventory 1%N 1%N 1%N None 10000 0 10000 (Some 1000000) None None 0 0]
    [] 2%N 0.


End Ledger.

(** ** Document numbers: [generate_transaction_number] and
       [generate_work_order_number] *)
Module Sequence.

(** A calendar date ([DATE], the value of [CURRENT_DATE]) and a
    [TIMESTAMPTZ] with its date part. *)
Record date := mk_date { year : nat; month : nat; day : nat }.

Record timestamp := mk_timestamp { ts_date : date; ts_seconds : N }.

Definition date_eqb (a b : date) : bool :=
  (year a =? year b)%nat && (month a =? month b)%nat && (day a =? day b)%nat.

(** The columns of [branches], [transactions] and [work_orders] the
    generators read. [received_at] is nullable. *)
Record branch := mk_branch { br_id : uuid; code : string }.

Record transaction := mk_transaction {
  tx_branch_id : uuid;
  transaction_number : string;
  transaction_date : date
}.

Record work_order := mk_work_order {
  wo_branch_id : uuid;
  work_order_number : string;
  received_at : option timestamp
}.

Record database := mk_db {
  branches : list branch;
  transactions : list transaction;
  work_orders : list work_order;
  current_date : date
}.

(** A PL/pgSQL call either raises (with its SQLSTATE) or returns. *)
Inductive outcome (A : Type) :=
  | Raise (sqlstate : string)
  | Return (a : A).
Arguments Raise {A} sqlstate.
Arguments Return {A} a.

#[global] Instance outcome_bind : MBind outcome := fun A B f x =>
  match x with
  | Raise e => Raise e
  | Return a => f a
  end.

(** *** SQL string and integer functions *)

Fixpoint string_drop (n : nat) (s : string) : string :=
  match n, s with
  | O, _ => s
  | S n', String _ r => string_drop n' r
  | S _, EmptyString => EmptyString
  end.

Fixpoint string_take (n : nat) (s : string) : string :=
  match n, s with
  | S n', String c r => String c (string_take n' r)
  | _, _ => EmptyString
  end.

Fixpoint string_rep (n : nat) (c : ascii) : string :=
  match n with
  | O => EmptyString
  | S n' => String c (string_rep n' c)
  end.

(** [LENGTH(s)]; NULL on NULL. *)
Definition sql_length (s : option string) : option nat :=
  match s with Some x => Some (String.length x) | None => None end.

(** [a + k] on a nullable integer. *)
Definition sql_plus (a : option nat) (k : nat) : option nat :=
  match a with Some x => Some (x + k)%nat | None => None end.

(** [SUBSTRING(s FROM n)]: the text from the 1-based position [n] to the
    end; NULL when an argument is NULL. *)
Definition sql_substring_from (s : option string) (n : option nat) : option string :=
  match s, n with
  | Some x, Some k => Some (string_drop (k - 1) x)
  | _, _ => None
  end.

(** [a || b]; NULL when an argument is NULL. *)
Definition sql_concat (a b : option string) : option string :=
  match a, b with
  | Some x, Some y => Some (x +:+ y)
  | _, _ => None
  end.

(** [LPAD(s, n, fill)] with a one-character fill: cut to [n] characters
    when [s] is longer, filled on the left otherwise. *)
Definition lpad (s : string) (n : nat) (fill : ascii) : string :=
  if (n <=? String.length s)%nat then string_take n s
  else string_rep (n - String.length s) fill +:+ s.

Definition is_digit (c : ascii) : bool :=
  (48 <=? N_of_ascii c)%N && (N_of_ascii c <=? 57)%N.

Fixpoint digits_value (acc : Z) (s : string) : option Z :=
  match s with
  | EmptyString => Some acc
  | String c r =>
      if is_digit c
      then digits_value (10 * acc + (Z.of_N (N_of_ascii c) - 48)) r
      else None
  end.

Definition in_int4 (z : Z) : bool := (-2147483648 <=? z) && (z <=? 2147483647).

(** The text-to-[INTEGER] input: an optional sign and at least one decimal
    digit, inside the 32-bit range. [None] stands for the error raised on
    anything else. (Surrounding blanks, which the input function skips, do
    not occur in document numbers.) *)
Definition int4_of_text (s : string) : option Z :=
  let '(negative, body) :=
    match s with
    | String "-"%char r => (true, r)
    | String "+"%char r => (false, r)
    | _ => (false, s)
    end in
  match body with
  | EmptyString => None
  | _ =>
      match digits_value 0 body with
      | Some z =>
          let v := if negative then - z else z in
          if in_int4 v then Some v else None
      | None => None
      end
  end.

(** [CAST(s AS INTEGER)]: NULL on NULL, an error on malformed text. *)
Definition cast_integer (s : option string) : outcome (option Z) :=
  match s with
  | None => Return None
  | Some x =>
      match int4_of_text x with
      | Some z => Return (Some z)
      | None => Raise "22P02"
      end
  end.

(** The casts of one column, row by row; the first error aborts the query. *)
Fixpoint cast_all (xs : list (option string)) : outcome (list (option Z)) :=
  match xs with
  | [] => Return []
  | x :: r => z ← cast_integer x; zs ← cast_all r; Return (z :: zs)
  end.

(** The aggregate [MAX]: NULLs are skipped; NULL when nothing is left. *)
Fixpoint sql_max (xs : list (option Z)) : option Z :=
  match xs with
  | [] => None
  | None :: r => sql_max r
  | Some a :: r =>
      match sql_max r with
      | Some b => Some (Z.max a b)
      | None => Some a
      end
  end.

(** [a + 1] on [INTEGER]: error 22003 out of range. *)
Definition int4_succ (a : Z) : outcome Z :=
  if in_int4 (a + 1) then Return (a + 1) else Raise "22003".

(** [TO_CHAR(d, 'YYMMDD')] *)
Definition two_digits (n : nat) : string := lpad (pretty (n mod 100)%nat) 2 "0".

Definition to_char_YYMMDD (d : date) : string :=
  two_digits (year d) +:+ two_digits (month d) +:+ two_digits (day d).

(** [SELECT code INTO v_branch_code FROM branches WHERE id = p_branch_id] *)
Definition select_branch_code (db : database) (p_branch_id : uuid) : option string :=
  match List.find (fun b => (br_id b =? p_branch_id)%N) (branches db) with
  | Some b => Some (code b)
  | None => None
  end.

(** [FROM transactions WHERE branch_id = p_branch_id
     AND transaction_date = CURRENT_DATE] *)
Definition transactions_of_day (db : database) (p_branch_id : uuid)
    : list transaction :=
  List.filter
    (fun t => (tx_branch_id t =? p_branch_id)%N &&
              date_eqb (transaction_date t) (current_date db))
    (transactions db).

(** [generate_transaction_number(p_branch_id UUID) RETURNS TEXT] *)
Definition generate_transaction_number (db : database) (p_branch_id : uuid)
    : outcome (option string) :=
  let v_branch_code := select_branch_code db p_branch_id in
  let v_date := to_char_YYMMDD (current_date db) in
  let rows := transactions_of_day db p_branch_id in
  casts ← cast_all
    (List.map
       (fun t => sql_substring_from (Some (transaction_number t))
                   (sql_plus (sql_length v_branch_code) 8))
       rows);
  v_seq ← int4_succ (coalesce (sql_max casts) 0);
  let v_number :=
    sql_concat (sql_concat (sql_concat (sql_concat
      v_branch_code (Some "-")) (Some v_date)) (Some "-"))
      (Some (lpad (pretty v_seq) 4 "0")) in
  Return v_number.

(** [DATE(received_at) = CURRENT_DATE], false on NULL. *)
Definition received_on (w : work_order) (d : date) : bool :=
  match received_at w with
  | Some ts => date_eqb (ts_date ts) d
  | None => false
  end.

(** [generate_work_order_number(p_branch_id UUID) RETURNS TEXT] *)
Definition generate_work_order_number (db : database) (p_branch_id : uuid)
    : outcome (option string) :=
  let v_branch_code := select_branch_code db p_branch_id in
  let v_date := to_char_YYMMDD (current_date db) in
  let rows :=
    List.filter
      (fun w => (wo_branch_id w =? p_branch_id)%N &&
                received_on w (current_date db))
      (work_orders db) in
  casts ← cast_all
    (List.map
       (fun w => sql_substring_from (Some (work_order_number w))
                   (sql_plus (sql_length v_branch_code) 11))
       rows);
  v_seq ← int4_succ (coalesce (sql_max casts) 0);
  let v_number :=
    sql_concat (sql_concat (sql_concat (sql_concat (sql_concat
      (Some "WO-") v_branch_code) (Some "-")) (Some v_date)) (Some "-"))
      (Some (lpad (pretty v_seq) 4 "0")) in
  Return v_number.

(** [INSERT INTO transactions (branch_id, transaction_number, ...)] under
    [transaction_number VARCHAR(50) NOT NULL UNIQUE]: error 23505 when the
    number is already stored. [transaction_date] defaults to [CURRENT_DATE]. *)
Definition insert_transaction (db : database) (b : uuid) (n : string)
    : outcome database :=
  if List.existsb (fun t => String.eqb (transaction_number t) n) (transactions db)
  then Raise "23505"
  else Return
    (mk_db (branches db)
       (transactions db ++ [mk_transaction b n (current_date db)])
       (work_orders db) (current_date db)).

(** Callers that run at the same time: each asks the generator for a number
    and later inserts its transaction under that number. A schedule is an
    interleaving of these steps; [received] holds the number each caller was
    given. *)
Inductive event :=
  | Generate (caller : nat)
  | Insert (caller : nat).

Record run_state := mk_run {
  store : database;
  received : gmap nat string
}.

Definition step (b : uuid) (st : run_state) (e : event) : run_state :=
  match e with
  | Generate c =>
      match generate_transaction_number (store st) b with
      | Return (Some n) => mk_run (store st) (<[c := n]> (received st))
      | _ => st
      end
  | Insert c =>
      match received st !! c with
      | Some n =>
          match insert_transaction (store st) b n with
          | Return db' => mk_run db' (received st)
          | Raise _ => st
          end
      | None => st
      end
  end.

Definition run (b : uuid) (st : run_state) (es : list event) : run_state :=
  List.fold_left (step b) es st.

Definition start (db : database) : run_state := mk_run db ∅.

Definition is_generate (e : event) : bool :=
  match e with Generate _ => true | Insert _ => false end.

Definition numbers (db : database) : list string :=
  List.map transaction_number (transactions db).

(** Example data: branch BR on 2 November 2025, with no document, with the
    day's first document, and with the first two. *)
Definition today : date := mk_date 2025 11 2.

Definition db_none : database := mk_db [mk_branch 1%N "BR"] [] [] today.

Definition db_one : database :=
  mk_db [mk_branch 1%N "BR"]
    [mk_transaction 1%N "BR-251102-0001" today]
    [mk_work_order 1%N "WO-BR-251102-0001" (Some (mk_timestamp today 36000%N))]
    today.

Definition db_two : database :=
  mk_db [mk_branch 1%N "BR"]
    [mk_transaction 1%N "BR-251102-0001" today;
     mk_transaction 1%N "BR-251102-0000" today]
    [] today.

(** A number of the shape the generator writes for branch code [c]:
    [c], "-", six characters of date, "-", and a suffix. *)
Definition generated_shape (c n : string) : Prop :=
  exists d s, String.length d = 6%nat /\
              n = (((c +:+ "-") +:+ d) +:+ "-") +:+ s.

End Sequence.

(** ** The audit trigger: [audit_trigger_func] and table [audit_logs] *)
Module Audit.

(** The JSON scalars [to_jsonb] produces for the columns of the examples. *)
Inductive json_scalar :=
  | JNull
  | JBool (b : bool)
  | JNumber (n : Z)
  | JString (s : string).

#[global] Instance json_scalar_eq_dec : EqDecision json_scalar.
Proof. solve_decision. Defined.

Section trigger.

(** The [jsonb] values, with their equality; a row image [to_jsonb(NEW)] is
    a JSON object, a finite map from column names to values. *)
Context {jsonb : Type} `{EqDecision jsonb}.

(** A row as the trigger sees it: its [id] column and its [to_jsonb] image. *)
Record pg_row := mk_row {
  id : uuid;
  to_jsonb : gmap string jsonb
}.

(** One row of [audit_logs] (the columns the trigger fills). *)
Record audit_log := mk_audit {
  table_name : string;
  record_id : uuid;
  action : string;
  old_data : option (gmap string jsonb);
  new_data : option (gmap string jsonb);
  changed_fields : option (list string)
}.

(** [TG_OP] with the rows [OLD] and [NEW] that come with it. *)
Inductive trigger_event :=
  | TG_INSERT (NEW : pg_row)
  | TG_UPDATE (OLD NEW : pg_row)
  | TG_DELETE (OLD : pg_row).

(** [value IS DISTINCT FROM old_json->key]: [old_json->key] is NULL when the
    key is absent. *)
Definition is_distinct_from (value : jsonb) (other : option jsonb) : bool :=
  bool_decide (other <> Some value).

(** [array_agg]: NULL over no rows. *)
Definition array_agg {A} (rows : list A) : option (list A) :=
  match rows with
  | [] => None
  | _ => Some rows
  end.

(** [array_length(a, 1)]: NULL for NULL and for the empty array. *)
Definition array_length {A} (a : option (list A)) : option nat :=
  match a with
  | Some ((_ :: _) as l) => Some (length l)
  | _ => None
  end.

(** [SELECT array_agg(key) FROM jsonb_each(new_json) AS n(key, value)
     WHERE n.value IS DISTINCT FROM old_json->n.key] *)
Definition changed_cols (old_json new_json : gmap string jsonb)
    : option (list string) :=
  array_agg
    (List.map fst
       (List.filter (fun n => is_distinct_from (snd n) (old_json !! fst n))
          (map_to_list new_json))).

(** [audit_trigger_func() RETURNS TRIGGER]: the new content of [audit_logs]
    and the row the trigger returns. *)
Definition audit_trigger_func (TG_TABLE_NAME : string) (ev : trigger_event)
    (audit_logs : list audit_log) : list audit_log * option pg_row :=
  match ev with
  | TG_INSERT NEW =>
      (audit_logs ++
         [mk_audit TG_TABLE_NAME (id NEW) "INSERT" None (Some (to_jsonb NEW)) None],
       Some NEW)
  | TG_UPDATE OLD NEW =>
      let old_json := to_jsonb OLD in
      let new_json := to_jsonb NEW in
      let changed := changed_cols old_json new_json in
      match changed, array_length changed with
      | Some _, Some (S _) =>
          (audit_logs ++
             [mk_audit TG_TABLE_NAME (id NEW) "UPDATE" (Some old_json)
                (Some new_json) changed],
           Some NEW)
      | _, _ => (audit_logs, Some NEW)
      end
  | TG_DELETE OLD =>
      (audit_logs ++
         [mk_audit TG_TABLE_NAME (id OLD) "DELETE" (Some (to_jsonb OLD)) None None],
       Some OLD)
  end.

(** The changed-field set as a list: empty for NULL. *)
Definition changed_fields_list (old_json new_json : gmap string jsonb) : list string :=
  match changed_cols old_json new_json with
  | Some l => l
  | None => []
  end.

End trigger.

(** An inventory row before and after a sale of two units. *)
Definition example_old : pg_row :=
  mk_row 7%N
    (<["id" := JNumber 7]> (<["quantity" := JNumber 5000]>
       (<["reserved_quantity" := JNumber 0]> (<["notes" := JNull]> ∅)))).

Definition example_new : pg_row :=
  mk_row 7%N
    (<["id" := JNumber 7]> (<["quantity" := JNumber 3000]>
       (<["reserved_quantity" := JNumber 0]> (<["notes" := JNull]> ∅)))).

End Audit.

(** ** The POS module of the frontend: cart, totals and payment *)
Module POS.

(** A product as loaded from the API; [selling_price] is its numeric value
    ([Number(product.selling_price)]). *)
Record product := mk_product {
  product_id : string;
  product_name : string;
  selling_price : Q;
  product_type : string
}.

(** An entry of [POS.cart]. *)
Record cart_item := mk_item {
  id : string;
  name : string;
  price : Q;
  quantity : Z;
  type : string
}.

Record customer := mk_customer { customer_id : string; customer_name : string }.

Record payment_method := mk_method { method_id : string; method_code : string }.

(** The fields of the [POS] object the cart operations use. *)
Record pos := mk_pos {
  products : list product;
  cart : list cart_item;
  selectedCustomer : option customer
}.

Definition set_cart (st : pos) (c : list cart_item) : pos :=
  mk_pos (products st) c (selectedCustomer st).

(** [item.quantity += d] on a cart entry (the entry is an object of the
    array, changed in place). *)
Definition add_quantity (d : Z) (item : cart_item) : cart_item :=
  mk_item (id item) (name item) (price item) (quantity item + d) (type item).

(** The in-place change of the entry [Array.prototype.find] returned: the
    first entry that satisfies [p]. *)
Fixpoint update_first (p : cart_item -> bool) (f : cart_item -> cart_item)
    (l : list cart_item) : list cart_item :=
  match l with
  | [] => []
  | x :: r => if p x then f x :: r else x :: update_first p f r
  end.

Definition has_id (itemId : string) (item : cart_item) : bool :=
  String.eqb (id item) itemId.

(** [addToCart(productId)] *)
Definition addToCart (st : pos) (productId : string) : pos :=
  match List.find (fun p => String.eqb (product_id p) productId) (products st) with
  | None => st
  | Some product =>
      match List.find (has_id productId) (cart st) with
      | Some existingItem =>
          set_cart st (update_first (has_id productId) (add_quantity 1) (cart st))
      | None =>
          set_cart st
            (cart st ++
               [mk_item (product_id product) (product_name product)
                  (selling_price product) 1 (product_type product)])
      end
  end.

(** [removeFromCart(itemId)] *)
Definition removeFromCart (st : pos) (itemId : string) : pos :=
  set_cart st (List.filter (fun i => negb (has_id itemId i)) (cart st)).

(** [updateQuantity(itemId, action)] *)
Definition updateQuantity (st : pos) (itemId action : string) : pos :=
  match List.find (has_id itemId) (cart st) with
  | None => st
  | Some item =>
      if String.eqb action "increase" then
        set_cart st (update_first (has_id itemId) (add_quantity 1) (cart st))
      else if String.eqb action "decrease" then
        let st1 :=
          set_cart st (update_first (has_id itemId) (add_quantity (-1)) (cart st)) in
        if quantity item - 1 <=? 0 then removeFromCart st1 itemId else st1
      else st
  end.

(** [clearCart()] *)
Definition clearCart (st : pos) : pos := mk_pos (products st) [] None.

(** [calculateTotals()] *)
Record totals := mk_totals {
  subtotal : Q;
  discount : Q;
  tax : Q;
  total : Q
}.

Definition calculateTotals (st : pos) : totals :=
  let subtotal :=
    List.fold_left
      (fun sum item => (sum + price item * inject_Z (quantity item))%Q)
      (cart st) 0%Q in
  let discount := 0%Q in
  let tax := (subtotal * 0.1)%Q in
  let total := (subtotal - discount + tax)%Q in
  mk_totals subtotal discount tax total.

(** [Number(input.value) || 0]: [None] is the NaN of a text that is not a
    number. *)
Definition number_or_zero (value : option Q) : Q :=
  match value with
  | Some q => q
  | None => 0%Q
  end.


(** The body of the request [API.transactions.create] receives. *)
Record transaction_item := mk_tx_item {
  item_id : string;
  tx_quantity : Z;
  unit_price : Q
}.

Record payment := mk_payment { payment_method_id : string; amount : Q }.

Record transactionData := mk_transaction_data {
  items : list transaction_item;
  payments : list payment;
  tx_customer_id : option string
}.

(** How [await API.transactions.create(...)] ends. *)
Inductive api_response :=
  | Resolved
  | Rejected (message : string).

(** What [completePayment] leaves behind: the state, the requests sent to
    the API and the toast shown. *)
Record payment_outcome := mk_outcome {
  state : pos;
  requests : list transactionData;
  toast : string * string
}.

Definition or_default (message fallback : string) : string :=
  if String.eqb message "" then fallback else message.

(** [completePayment(paymentMethod, totals)]; [value] is the text of the
    amount field as a number, [paymentMethod] is [None] when it is
    undefined (reading its [id] then throws inside the [try]). *)
Definition completePayment (st : pos) (value : option Q)
    (paymentMethod : option payment_method) (t : totals)
    (response : api_response) : payment_outcome :=
  let received := number_or_zero value in
  if Qlt_le_dec received (total t) then
    mk_outcome st [] ("Insufficient payment amount", "error")
  else
    match paymentMethod with
    | None =>
        mk_outcome st []
          ("Cannot read properties of undefined (reading 'id')", "error")
    | Some method =>
        let data :=
          mk_transaction_data
            (List.map
               (fun item => mk_tx_item (id item) (quantity item) (price item))
               (cart st))
            [mk_payment (method_id method) (total t)]
            (match selectedCustomer st with
             | Some c => Some (customer_id c)
             | None => None
             end) in
        match response with
        | Resolved =>
            mk_outcome (clearCart st) [data]
              ("Payment completed successfully!", "success")
        | Rejected message =>
            mk_outcome st [data] (or_default message "Payment failed", "error")
        end
    end.

(** The cart operations as data, and a session of them. *)
Inductive cart_op :=
  | AddToCart (productId : string)
  | UpdateQuantity (itemId action : string)
  | RemoveFromCart (itemId : string)
  | ClearCart.

Definition apply_op (st : pos) (op : cart_op) : pos :=
  match op with
  | AddToCart productId => addToCart st productId
  | UpdateQuantity itemId action => updateQuantity st itemId action
  | RemoveFromCart itemId => removeFromCart st itemId
  | ClearCart => clearCart st
  end.

(** Every entry of the cart has quantity at least 1. *)
Definition cart_ok (st : pos) : Prop :=
  Forall (fun item => 1 <= quantity item) (cart st).


(** The same arithmetic on IEEE 754 binary64, the number type of the
    browser, for checking concrete amounts as the code computes them. A cart
    line is its (price, quantity). *)
Module Binary64.
Import PrimFloat.

Definition calculateTotals (cart : list (float * float))
    : float * float * float * float :=
  let subtotal :=
    List.fold_left (fun sum item => (sum + fst item * snd item)%float)
      cart 0%float in
  let discount := 0%float in
  let tax := (subtotal * 0x1.999999999999ap-4)%float in
  let total := (subtotal - discount + tax)%float in
  (subtotal, discount, tax, total).

(** Two units at 25000, and the totals the specification gives for them:
    subtotal 50000, discount 0, tax 5000, total 55000. *)
Definition example_cart : list (float * float) := [(25000, 2)%float].


End Binary64.

(** The cart of the specification's example: 2 units at 25000. *)
Definition example_cart : pos :=
  mk_pos [mk_product "1" "Coffee Latte" 25000 "product"]
    [mk_item "1" "Coffee Latte" 25000 2 "product"] None.

Definition example_ops : list cart_op :=
  [ AddToCart "1"; UpdateQuantity "1" "decrease";
    UpdateQuantity "1" "decrease"; UpdateQuantity "1" "decrease";
    AddToCart "1"; UpdateQuantity "1" "increase"; RemoveFromCart "2" ].

End POS.

(** ** The stock ledger, continued: sums of movements, one row per key, and
       the view [v_inventory_summary] *)
Module LedgerExt.
Import Ledger.



(** No two rows of a table answer the same lookup. *)
Fixpoint keys_distinct (inv : list inventory_row) : Prop :=
  match inv with
  | [] => True
  | r :: rest =>
      Forall
        (fun r' =>
           key_of_row (inv_warehouse_id r) (inv_item_id r) (inv_variant_id r) r'
           = false) rest /\
      keys_distinct rest
  end.


(** The columns of [v_inventory_summary] that come from [inventory]; the
    names joined from [items], [item_variants], [warehouses] and [branches]
    are left out. [inventory_value] is [quantity * avg_cost], NULL when
    [avg_cost] is NULL. *)
Record inventory_summary := mk_summary {
  vs_item_id : uuid;
  vs_variant_id : option uuid;
  vs_warehouse_id : uuid;
  vs_quantity : Z;
  vs_reserved_quantity : Z;
  vs_available_quantity : Z;
  vs_avg_cost : option Z;
  inventory_value : option Z
}.

Definition summary_of_row (inv : inventory_row) : inventory_summary :=
  mk_summary (inv_item_id inv) (inv_variant_id inv) (inv_warehouse_id inv)
    (quantity inv) (reserved_quantity inv) (available_quantity inv)
    (avg_cost inv)
    (match avg_cost inv with
     | Some c => Some (quantity inv * c)
     | None => None
     end).

(** [SELECT ... FROM inventory inv JOIN items ... JOIN warehouses ...
     JOIN branches ...]: the foreign keys of a row reference existing rows,
    so every inventory row gives one row of the view. *)
Definition v_inventory_summary (db : database) : list inventory_summary :=
  List.map summary_of_row (inventory db).

(** The columns [update_inventory] never writes keep their defaults. *)
Definition defaults_kept (r : inventory_row) : Prop :=
  reserved_quantity r = 0 /\ available_quantity r = quantity r /\
  avg_cost r = Some 0.

End LedgerExt.

(** ** Document numbers, continued *)
Module SequenceExt.
Import Sequence.

(** [FROM work_orders WHERE branch_id = p_branch_id
     AND DATE(received_at) = CURRENT_DATE] *)
Definition work_orders_of_day (db : database) (p_branch_id : uuid)
    : list work_order :=
  List.filter
    (fun w => (wo_branch_id w =? p_branch_id)%N &&
              received_on w (current_date db))
    (work_orders db).

(** The two numbers the transaction generator can return for branch code
    [c] on the day of [db]: suffix 0001 and suffix 0000. *)
Definition number_0001 (db : database) (c : string) : string :=
  (((c +:+ "-") +:+ to_char_YYMMDD (current_date db)) +:+ "-") +:+ "0001".

Definition number_0000 (db : database) (c : string) : string :=
  (((c +:+ "-") +:+ to_char_YYMMDD (current_date db)) +:+ "-") +:+ "0000".

(** What holds of the store and of the callers along a schedule that starts
    on a day without documents of branch [b] (code [c]) in [db0]: branches
    and date are those of [db0], the stored numbers are pairwise distinct,
    and the documents of the day and the numbers handed out are the two
    numbers above. *)
Definition day_invariant (db0 : database) (b : uuid) (c : string)
    (st : run_state) : Prop :=
  branches (store st) = branches db0 /\
  current_date (store st) = current_date db0 /\
  NoDup (numbers (store st)) /\
  Forall
    (fun t => transaction_number t = number_0001 db0 c \/
              transaction_number t = number_0000 db0 c)
    (transactions_of_day (store st) b) /\
  forall k n, received st !! k = Some n ->
              n = number_0001 db0 c \/ n = number_0000 db0 c.

End SequenceExt.

(** ** The audit trigger, continued: the [updated_at] trigger and sequences
       of row events *)
Module AuditExt.
Import Audit.

Section triggers.

Context {jsonb : Type} `{EqDecision jsonb}.

(** The JSON image [to_jsonb] gives a [TIMESTAMPTZ] value. *)
Context (timestamptz_to_jsonb : timestamptz -> jsonb).

(** [update_updated_at() RETURNS TRIGGER]:
    [NEW.updated_at = NOW(); RETURN NEW;] on the image of the row. *)
Definition update_updated_at (now : timestamptz) (NEW : @pg_row jsonb)
    : @pg_row jsonb :=
  mk_row (id NEW) (<["updated_at" := timestamptz_to_jsonb now]> (to_jsonb NEW)).

(** The UPDATE of one row on a table that carries both triggers
    ([set_updated_at_* BEFORE UPDATE], [audit_* AFTER UPDATE]): the audit
    trigger sees the row the first trigger returned. *)
Definition update_with_triggers (TG_TABLE_NAME : string) (now : timestamptz)
    (OLD NEW : @pg_row jsonb) (audit_logs : list (@audit_log jsonb))
    : list (@audit_log jsonb) * option (@pg_row jsonb) :=
  audit_trigger_func TG_TABLE_NAME
    (TG_UPDATE OLD (update_updated_at now NEW)) audit_logs.

(** Row events on audited tables, fired one after the other. *)
Definition fire (audit_logs : list (@audit_log jsonb))
    (ev : string * @trigger_event jsonb) : list (@audit_log jsonb) :=
  fst (audit_trigger_func (fst ev) (snd ev) audit_logs).

Definition fire_all (audit_logs : list (@audit_log jsonb))
    (evs : list (string * @trigger_event jsonb)) : list (@audit_log jsonb) :=
  List.fold_left fire evs audit_logs.

(** The three kinds of rows the trigger writes. *)
Definition audit_row_ok (a : @audit_log jsonb) : Prop :=
  (action a = "INSERT" /\ old_data a = None /\ is_Some (new_data a) /\
   changed_fields a = None) \/
  (action a = "UPDATE" /\ is_Some (old_data a) /\ is_Some (new_data a) /\
   exists k l, changed_fields a = Some (k :: l)) \/
  (action a = "DELETE" /\ is_Some (old_data a) /\ new_data a = None /\
   changed_fields a = None).

Definition is_update (ev : string * @trigger_event jsonb) : bool :=
  match snd ev with TG_UPDATE _ _ => true | _ => false end.

End triggers.

(** The example inventory row with its [updated_at] column, stamped at
    instant 10. *)
Definition example_stamped : @pg_row json_scalar :=
  mk_row 7%N (<["updated_at" := JNumber 10]> (to_jsonb example_old)).

End AuditExt.

(** ** The POS module, continued: cart lines, holds, and the request of a
       payment *)
Module POSExt.
Import POS.

(** The identifiers of the cart lines, in order. *)
Definition cart_ids (st : pos) : list string := List.map id (cart st).



(** The body [holdTransaction] sends to [API.transactions.hold]. *)
Record holdData := mk_hold_data {
  hold_items : list cart_item;
  hold_totals : totals;
  hold_customer_id : option string;
  hold_name : string
}.

Record hold_outcome := mk_hold_outcome {
  hold_state : pos;
  hold_requests : list holdData;
  hold_toast : option (string * string)
}.

(** [holdTransaction()]. [answer] is what [Utils.prompt] resolved to ([None]
    for null), [time] the text of [new Date().toLocaleTimeString()]. *)
Definition holdTransaction (st : pos) (answer : option string) (time : string)
    (response : api_response) : hold_outcome :=
  match cart st with
  | [] => mk_hold_outcome st [] (Some ("Cart is empty", "warning"))
  | _ :: _ =>
      match answer with
      | None => mk_hold_outcome st [] None
      | Some holdName =>
          let data :=
            mk_hold_data (cart st) (calculateTotals st)
              (match selectedCustomer st with
               | Some c => Some (customer_id c)
               | None => None
               end)
              (or_default holdName ("Hold " +:+ time)) in
          match response with
          | Resolved =>
              mk_hold_outcome (clearCart st) [data]
                (Some ("Transaction held", "success"))
          | Rejected message =>
              mk_hold_outcome st [data]
                (Some (or_default message "Failed to hold transaction", "error"))
          end
      end
  end.

End POSExt.

(** ** The Products module: [saveProduct]; the Reports module: the average
       sale of [loadSalesSummary] *)
Module Products.
Import POS.










End Products.

Module Reports.
Import POS.


End Reports.

(** ** The view [v_daily_sales_summary] *)
Module SalesView.
Import Sequence.

(** [CREATE TYPE transaction_status AS ENUM (...)] *)
Inductive transaction_status :=
  | draft | pending | completed | cancelled | refunded.

(** The columns of [transactions] the view reads; amounts count hundredths
    ([DECIMAL(15,2)]); [discount_amount], [tax_amount] and [status] are
    nullable. *)
Record sale := mk_sale {
  sale_branch_id : uuid;
  sale_date : date;
  transaction_type : string;
  total_amount : Z;
  discount_amount : option Z;
  tax_amount : option Z;
  status : option transaction_status
}.

(** One row of the view. *)
Record daily_sales := mk_daily {
  branch_id : uuid;
  transaction_date : date;
  total_transactions : Z;
  sales_count : Z;
  returns_count : Z;
  gross_sales : Z;
  total_returns : Z;
  net_sales : Z;
  total_discounts : option Z;
  total_tax : option Z
}.

Definition is_completed (t : sale) : bool :=
  match status t with Some completed => true | _ => false end.

Definition in_group (b : uuid) (d : date) (t : sale) : bool :=
  (sale_branch_id t =? b)%N && date_eqb (sale_date t) d.

(** [SUM(e)] over the rows of a group, for an expression that is never
    NULL. *)
Fixpoint sum_of (e : sale -> Z) (g : list sale) : Z :=
  match g with
  | [] => 0
  | t :: r => e t + sum_of e r
  end.

(** [SUM(column)] for a nullable column: NULLs are skipped, NULL when no
    value is left. *)
Fixpoint sum_nullable (e : sale -> option Z) (g : list sale) : option Z :=
  match g with
  | [] => None
  | t :: r =>
      match e t, sum_nullable e r with
      | Some a, Some b => Some (a + b)
      | Some a, None => Some a
      | None, s => s
      end
  end.

Definition is_type (ty : string) (t : sale) : bool :=
  String.eqb (transaction_type t) ty.

(** The select list of the view, over the rows of one group. *)
Definition aggregate (b : uuid) (d : date) (g : list sale) : daily_sales :=
  mk_daily b d
    (Z.of_nat (length g))
    (sum_of (fun t => if is_type "sale" t then 1 else 0) g)
    (sum_of (fun t => if is_type "return" t then 1 else 0) g)
    (sum_of (fun t => if is_type "sale" t then total_amount t else 0) g)
    (sum_of (fun t => if is_type "return" t then total_amount t else 0) g)
    (sum_of (fun t => if is_type "sale" t then total_amount t
                      else - total_amount t) g)
    (sum_nullable discount_amount g)
    (sum_nullable tax_amount g).

(** The groups of [GROUP BY t.branch_id, t.transaction_date], each once, in
    the order of their first row. *)
Fixpoint group_keys (rows : list sale) : list (uuid * date) :=
  match rows with
  | [] => []
  | t :: r =>
      (sale_branch_id t, sale_date t) ::
      List.filter
        (fun k => negb (in_group (fst k) (snd k) t))
        (group_keys r)
  end.

(** [SELECT ... FROM transactions t WHERE t.status = 'completed'
     GROUP BY t.branch_id, t.transaction_date] *)
Definition v_daily_sales_summary (transactions : list sale) : list daily_sales :=
  let rows := List.filter is_completed transactions in
  List.map
    (fun k => aggregate (fst k) (snd k)
                (List.filter (in_group (fst k) (snd k)) rows))
    (group_keys rows).

(** The amounts and the number of the rows of a group that are neither
    sales nor returns. *)
Definition other_total (g : list sale) : Z :=
  sum_of (fun t => if is_type "sale" t || is_type "return" t then 0
                   else total_amount t) g.

Definition other_count (g : list sale) : Z :=
  sum_of (fun t => if is_type "sale" t || is_type "return" t then 0 else 1) g.

(** A day of one branch: a sale, a return and an exchange that are
    completed, and a sale still in draft. *)
Definition example_sales : list sale :=
  [mk_sale 1%N (mk_date 2024 3 15) "sale" 10000 (Some 500) (Some 1000)
     (Some completed);
   mk_sale 1%N (mk_date 2024 3 15) "return" 3000 None (Some 0) (Some completed);
   mk_sale 1%N (mk_date 2024 3 15) "exchange" 2000 (Some 0) None
     (Some completed)].

Definition example_draft : sale :=
  mk_sale 1%N (mk_date 2024 3 15) "sale" 7000 (Some 0) (Some 0) (Some draft).

End SalesView.

(** ** The API layer of the front end: token store and [API.request] *)
Module Api.

Definition baseUrl : string := "http://localhost:3000/api/v1".

(** JavaScript truthiness of a value that is [null] or a string. *)
Definition truthy (v : option string) : bool :=
  match v with
  | Some s => negb (String.eqb s "")
  | None => false
  end.

Section api.
(** [json] are the parsed bodies of the replies, [body] the objects sent.
    [error_message] reads [data.error?.message] ([""] when it is missing),
    [session_tokens] reads [data.data.accessToken] and
    [data.data.refreshToken], [None] when [data.data] is missing, so that
    reading them throws. *)
Context {json body : Type}.
Variable error_message : json -> string.
Variable session_tokens : json -> option (string * string).

Inductive payload :=
  | Json (b : body)
  | RefreshBody (refresh_token : string).

(** What [fetch] is called with: the URL, the method, the token of the
    [Authorization] header if there is one, and the body. *)
Record http_request := mk_request {
  url : string;
  method : string;
  authorization : option string;
  request_body : option payload
}.

(** What [fetch] and [response.json()] give: [fetch] throws, or there is a
    response whose body parses ([Some]) or does not ([None]). *)
Inductive fetch_result :=
  | FetchThrows
  | Response (ok : bool) (status : Z) (data : option json).

(** The server and the network: the reply to a request, given the requests
    sent before it. *)
Variable net : list http_request -> http_request -> fetch_result.

(** [API.token], the browser's [localStorage], and the requests sent so
    far, oldest first. *)
Record world := mk_world {
  token : option string;
  localStorage : gmap string string;
  sent : list http_request
}.

Definition setToken (t : string) (w : world) : world :=
  mk_world (Some t) (<["pos_token" := t]> (localStorage w)) (sent w).

Definition getToken (w : world) : option string * world :=
  let w' :=
    if truthy (token w) then w
    else mk_world (localStorage w !! "pos_token") (localStorage w) (sent w) in
  (token w', w').

Definition clearAuth (w : world) : world :=
  mk_world None
    (delete "pos_refresh_token"
       (delete "pos_user" (delete "pos_token" (localStorage w))))
    (sent w).

Definition setItem (k v : string) (w : world) : world :=
  mk_world (token w) (<[k := v]> (localStorage w)) (sent w).

Definition fetch (rq : http_request) (w : world) : fetch_result * world :=
  (net (sent w) rq, mk_world (token w) (localStorage w) (sent w ++ [rq])).

(** The request [refreshToken()] sends. *)
Definition refresh_request (rt : string) : http_request :=
  mk_request (baseUrl +:+ "/auth/refresh") "POST" None (Some (RefreshBody rt)).

(** [refreshToken()] *)
Definition refreshToken (w : world) : bool * world :=
  match localStorage w !! "pos_refresh_token" with
  | None => (false, w)
  | Some rt =>
      if String.eqb rt "" then (false, w)
      else
        let '(response, w1) :=
          fetch (refresh_request rt) w in
        match response with
        | FetchThrows => (false, clearAuth w1)
        | Response false _ _ => (false, clearAuth w1)
        | Response true _ None => (false, clearAuth w1)
        | Response true _ (Some data) =>
            match session_tokens data with
            | None => (false, clearAuth w1)
            | Some (accessToken, refreshToken') =>
                (true,
                 setItem "pos_refresh_token" refreshToken'
                   (setToken accessToken w1))
            end
        end
  end.

(** The [options] of a request: [retry] is [false] exactly when
    [options.retry === false]. No caller passes [headers]. *)
Record options := mk_options {
  opt_method : option string;
  opt_body : option body;
  retry : bool
}.

Inductive error :=
  | Thrown
  | Error (message : string).

Inductive request_outcome :=
  | Returned (data : json)
  | Failed (e : error).

Definition request_failed (data : json) : request_outcome :=
  Failed (Error (if String.eqb (error_message data) "" then "Request failed"
                 else error_message data)).

(** The [url] and the [config] that [request] calls [fetch] with, for the
    token [getToken()] gave. *)
Definition config (endpoint : string) (o : options) (tok : option string)
    : http_request :=
  mk_request (baseUrl +:+ endpoint)
    (match opt_method o with
     | Some m => if String.eqb m "" then "GET" else m
     | None => "GET"
     end)
    (if truthy tok then tok else None)
    (Json <$> opt_body o).

Definition no_retry (o : options) : options :=
  mk_options (opt_method o) (opt_body o) false.

(** [request(endpoint, options)]; the fuel bounds the depth of the calls of
    [request] by itself. *)
Fixpoint request (fuel : nat) (endpoint : string) (o : options) (w : world)
    : option (request_outcome * world) :=
  match fuel with
  | O => None
  | S fuel =>
      let '(tok, w0) := getToken w in
      let '(response, w1) := fetch (config endpoint o tok) w0 in
      match response with
      | FetchThrows => Some (Failed Thrown, w1)
      | Response _ _ None => Some (Failed Thrown, w1)
      | Response true _ (Some data) => Some (Returned data, w1)
      | Response false status (Some data) =>
          if (status =? 401) && retry o then
            let '(refreshed, w2) := refreshToken w1 in
            if refreshed then
              request fuel endpoint (no_retry o) w2
            else Some (request_failed data, w2)
          else Some (request_failed data, w1)
      end
  end.

(** A page load: [API.token] starts as [null], [localStorage] stays. *)
Definition reload (w : world) : world :=
  mk_world None (localStorage w) (sent w).

Definition auth_keys : list string :=
  ["pos_token"; "pos_user"; "pos_refresh_token"].

End api.

Arguments http_request : clear implicits.
Arguments fetch_result : clear implicits.
Arguments world : clear implicits.
Arguments options : clear implicits.
Arguments request_outcome : clear implicits.
Arguments payload : clear implicits.

(** A session: the access token has expired, the refresh token is good. *)
Record example_json := mk_example_json {
  example_message : string;
  example_tokens : option (string * string)
}.

Definition example_world : world unit :=
  mk_world None
    (<["pos_refresh_token" := "R1"]> (<["pos_token" := "A1"]> ∅)) [].

Definition example_options : options unit :=
  mk_options (Some "POST") (Some tt) true.

Definition example_net (history : list (http_request unit))
    (rq : http_request unit) : fetch_result example_json :=
  match request_body rq with
  | Some (RefreshBody rt) =>
      if String.eqb rt "R1"
      then Response true 200 (Some (mk_example_json "" (Some ("A2", "R2"))))
      else Response false 401 (Some (mk_example_json "Invalid token" None))
  | _ =>
      if bool_decide (authorization rq = Some "A2")
      then Response true 201 (Some (mk_example_json "" None))
      else Response false 401 (Some (mk_example_json "Token expired" None))
  end.


End Api.

(** ** The stock ledger: properties of [update_inventory] *)
Module LedgerProofs.
Import Ledger.

(** *** Lemmas on the key comparison and the row update *)

Lemma same_key_refl w i v : same_key w i v w i v = true.
Proof. unfold same_key. by rewrite !N.eqb_refl. Qed.

Lemma same_key_spec w i v w' i' v' :
  same_key w i v w' i' v' = true <->
  w = w' /\ i = i' /\ coalesce v uuid_nil = coalesce v' uuid_nil.
Proof.
  unfold same_key. rewrite !andb_true_iff, !N.eqb_eq. tauto.
Qed.

Lemma same_key_sym w i v w' i' v' :
  same_key w i v w' i' v' = same_key w' i' v' w i v.
Proof.
  unfold same_key.
  by rewrite (N.eqb_sym w), (N.eqb_sym i), (N.eqb_sym (coalesce v _)).
Qed.

Lemma same_key_trans_r w i v w1 i1 v1 w2 i2 v2 :
  same_key w1 i1 v1 w2 i2 v2 = true ->
  same_key w i v w1 i1 v1 = same_key w i v w2 i2 v2.
Proof.
  intros (-> & -> & E)%same_key_spec. unfold same_key. by rewrite E.
Qed.

Lemma update_quantity_touch db id q :
  update_quantity db id q =
  mk_db (List.map (touch id q (now db)) (inventory db))
    (stock_movements db) (next_uuid db) (now db).
Proof. reflexivity. Qed.

Lemma touch_key id q t w i v r : key_of_row w i v (touch id q t r) = key_of_row w i v r.
Proof. unfold touch. by destruct (inv_id r =? id)%N. Qed.

Lemma touch_id id q t r : inv_id (touch id q t r) = inv_id r.
Proof. unfold touch. by destruct (inv_id r =? id)%N. Qed.

Lemma touch_avg_cost id q t r : avg_cost (touch id q t r) = avg_cost r.
Proof. unfold touch. by destruct (inv_id r =? id)%N. Qed.

Lemma touch_reserved id q t r :
  reserved_quantity (touch id q t r) = reserved_quantity r.
Proof. unfold touch. by destruct (inv_id r =? id)%N. Qed.

Lemma touch_hit id q t r : inv_id r = id -> quantity (touch id q t r) = q.
Proof. intros <-. unfold touch. by rewrite N.eqb_refl. Qed.

Lemma touch_miss id q t r : inv_id r <> id -> touch id q t r = r.
Proof. intros H%N.eqb_neq. unfold touch. by rewrite H. Qed.

Lemma touch_available id q t r :
  available_quantity r = quantity r - reserved_quantity r ->
  available_quantity (touch id q t r) =
  quantity (touch id q t r) - reserved_quantity (touch id q t r).
Proof. unfold touch. by destruct (inv_id r =? id)%N. Qed.

Lemma find_map_same {A} (p : A -> bool) (f : A -> A) (l : list A) :
  (forall x, p (f x) = p x) ->
  List.find p (List.map f l) = option_map f (List.find p l).
Proof.
  intros Hp. induction l as [|x l IH]; simpl; [done|].
  rewrite Hp. by destruct (p x).
Qed.

Lemma find_snoc {A} (p : A -> bool) (l : list A) (x : A) :
  List.find p (l ++ [x]) =
  match List.find p l with
  | Some y => Some y
  | None => if p x then Some x else None
  end.
Proof.
  induction l as [|y l IH]; simpl; [done|]. by destruct (p y).
Qed.

Lemma select_touch inv id q t w i v :
  select_inventory (List.map (touch id q t) inv) w i v =
  option_map (touch id q t) (select_inventory inv w i v).
Proof. apply find_map_same. intros r. apply touch_key. Qed.

(** *** The two paths of [update_inventory], written out *)

Lemma update_inventory_found db w i v q mt rt rid uc user r :
  select_inventory (inventory db) w i v = Some r ->
  update_inventory db w i v q mt rt rid uc user =
  (mk_db (List.map (touch (inv_id r) (quantity r + q) (now db)) (inventory db))
     (stock_movements db ++
        [mk_movement (next_uuid db) w i v mt rt rid q uc
           (quantity r) (quantity r + q) None user (now db)])
     (N.succ (next_uuid db)) (now db),
   next_uuid db).
Proof. intros H. unfold update_inventory. by rewrite H. Qed.

Lemma update_inventory_created db w i v q mt rt rid uc user :
  select_inventory (inventory db) w i v = None ->
  update_inventory db w i v q mt rt rid uc user =
  (mk_db
     (List.map (touch (next_uuid db) (0 + q) (now db))
        (inventory db ++
           [mk_inventory (next_uuid db) w i v 0 0 0 (Some 0) None None
              (now db) (now db)]))
     (stock_movements db ++
        [mk_movement (N.succ (next_uuid db)) w i v mt rt rid q uc
           0 (0 + q) None user (now db)])
     (N.succ (N.succ (next_uuid db))) (now db),
   N.succ (next_uuid db)).
Proof. intros H. unfold update_inventory. by rewrite H. Qed.

(** Both paths at once: the rows a call adds ([] or the fresh row), the
    identifier it updates, and the movement it appends. *)
Lemma update_inventory_effect db w i v q mt rt rid uc user :
  exists id0 added mid,
    update_inventory db w i v q mt rt rid uc user =
      (mk_db
         (List.map (touch id0 (on_hand db w i v + q) (now db))
            (inventory db ++ added))
         (stock_movements db ++
            [mk_movement mid w i v mt rt rid q uc
               (on_hand db w i v) (on_hand db w i v + q) None user (now db)])
         (N.succ mid) (now db),
       mid) /\
    ((exists r, select_inventory (inventory db) w i v = Some r /\
                id0 = inv_id r /\ added = [] /\ mid = next_uuid db) \/
     (select_inventory (inventory db) w i v = None /\
      id0 = next_uuid db /\ added = [fresh_row db w i v] /\
      mid = N.succ (next_uuid db))).
Proof.
  destruct (select_inventory (inventory db) w i v) as [r|] eqn:Hsel.
  - exists (inv_id r), [], (next_uuid db). split; [|left; eauto].
    rewrite (update_inventory_found _ _ _ _ _ _ _ _ _ _ _ Hsel).
    unfold on_hand. rewrite Hsel. by rewrite app_nil_r.
  - exists (next_uuid db), [fresh_row db w i v], (N.succ (next_uuid db)).
    split; [|right; eauto].
    rewrite (update_inventory_created _ _ _ _ _ _ _ _ _ _ Hsel).
    unfold on_hand. by rewrite Hsel.
Qed.

(** After a call the key has a row, and it holds the new quantity. *)
Lemma update_inventory_select db w i v q mt rt rid uc user :
  exists r',
    select_inventory
      (inventory (fst (update_inventory db w i v q mt rt rid uc user))) w i v
      = Some r' /\
    quantity r' = on_hand db w i v + q /\
    available_quantity r' = quantity r' - reserved_quantity r' /\
    avg_cost r' =
      match select_inventory (inventory db) w i v with
      | Some r => avg_cost r
      | None => Some 0
      end.
Proof.
  destruct (update_inventory_effect db w i v q mt rt rid uc user)
    as (id0 & added & mid & -> & Hcase). simpl.
  rewrite select_touch.
  destruct Hcase as [(r & Hsel & -> & -> & _) | (Hsel & -> & -> & _)].
  - rewrite app_nil_r, Hsel. simpl. eexists. split; [done|].
    rewrite touch_avg_cost. unfold touch. by rewrite N.eqb_refl.
  - unfold select_inventory in *. rewrite find_snoc, Hsel.
    unfold key_of_row at 1. simpl. rewrite same_key_refl. simpl.
    eexists. split; [done|].
    unfold touch. simpl. by rewrite N.eqb_refl.
Qed.


(** The movement a call appends. *)
Lemma update_inventory_appends db w i v q mt rt rid uc user :
  exists m,
    stock_movements (fst (update_inventory db w i v q mt rt rid uc user)) =
      stock_movements db ++ [m] /\
    sm_id m = snd (update_inventory db w i v q mt rt rid uc user) /\
    key_of_movement w i v m = true /\
    sm_quantity m = q /\ unit_cost m = uc /\
    quantity_before m = on_hand db w i v /\
    quantity_after m = on_hand db w i v + q.
Proof.
  destruct (update_inventory_effect db w i v q mt rt rid uc user)
    as (id0 & added & mid & -> & _). simpl.
  eexists. split; [done|]. simpl. repeat split.
  unfold key_of_movement. simpl. apply same_key_refl.
Qed.

(** *** Claims on a single call *)




(** C2, as stated, fails: 10.000 units at average cost 100.0000 receive
    10.000 units at unit cost 200.0000; the weighted average is 150.0000 but
    the row keeps 100.0000. *)
Lemma update_inventory_inbound_avg_cost_stale :
  spec_weighted_avg_cost 10000 1000000 10000 2000000 = 1500000 /\
  avg_cost_of
    (fst (update_inventory example_costed_db 1%N 1%N None 10000 mt_in
            (Some "purchase") None (Some 2000000) None)) 1%N 1%N None
  <> Some (spec_weighted_avg_cost 10000 1000000 10000 2000000).
Proof. split; [reflexivity | discriminate]. Qed.

(** C2 (amended): [update_inventory] never writes [avg_cost]. After every
    call, inbound or outbound, every row keeps its [avg_cost]; a row the call
    creates has the column default 0; the unit cost is recorded only in the
    appended [stock_movements] row. *)
Theorem update_inventory_keeps_avg_cost db w i v q mt rt rid uc user :
  let db' := fst (update_inventory db w i v q mt rt rid uc user) in
  List.map avg_cost (inventory db') =
    List.map avg_cost (inventory db) ++
      match select_inventory (inventory db) w i v with
      | Some _ => []
      | None => [Some 0]
      end /\
  avg_cost_of db' w i v =
    match select_inventory (inventory db) w i v with
    | Some r => avg_cost r
    | None => Some 0
    end /\
  exists m, last (stock_movements db') = Some m /\ unit_cost m = uc.
Proof.
  intros db'. subst db'. split; [|split].
  - destruct (update_inventory_effect db w i v q mt rt rid uc user)
      as (id0 & added & mid & -> & Hcase). simpl.
    rewrite List.map_map.
    rewrite (List.map_ext _ avg_cost) by (intros r; apply touch_avg_cost).
    rewrite List.map_app.
    by destruct Hcase as [(r & -> & _ & -> & _) | (-> & _ & -> & _)].
  - destruct (update_inventory_select db w i v q mt rt rid uc user)
      as (r' & Hsel & _ & _ & Hc).
    unfold avg_cost_of. by rewrite Hsel.
  - destruct (update_inventory_appends db w i v q mt rt rid uc user)
      as (m & -> & _ & _ & _ & Hu & _).
    exists m. by rewrite last_snoc.
Qed.

(** C9: [available_quantity = quantity - reserved_quantity] on the row a
    call of [update_inventory] writes, and on every row of the table after
    the call when it held on every row before. *)
Theorem update_inventory_available_quantity db w i v q mt rt rid uc user :
  let db' := fst (update_inventory db w i v q mt rt rid uc user) in
  (exists r, select_inventory (inventory db') w i v = Some r /\
             available_quantity r = quantity r - reserved_quantity r) /\
  (available_ok db -> available_ok db').
Proof.
  intros db'. subst db'. split.
  - destruct (update_inventory_select db w i v q mt rt rid uc user)
      as (r' & Hsel & _ & Hav & _). eauto.
  - destruct (update_inventory_effect db w i v q mt rt rid uc user)
      as (id0 & added & mid & -> & Hcase).
    unfold available_ok. simpl. intros Hok.
    apply List.Forall_map, List.Forall_app. split.
    + eapply List.Forall_impl; [|exact Hok]. intros r. apply touch_available.
    + destruct Hcase as [(_ & _ & _ & -> & _) | (_ & _ & -> & _)];
        [constructor|].
      constructor; [|constructor]. apply touch_available. reflexivity.
Qed.

Lemma update_inventory_available_quantity_witness :
  available_ok example_db /\
  available_ok (fst (update_inventory example_db 1%N 1%N None (-2000) mt_sale
                       (Some "transaction") None None None)).
Proof.
  assert (H0 : available_ok example_db)
    by (constructor; [reflexivity | constructor]).
  split; [exact H0|].
  exact (proj2 (update_inventory_available_quantity example_db 1%N 1%N None
                  (-2000) mt_sale (Some "transaction") None None None) H0).
Defined.

(** *** The ledger invariant along a run of calls *)


Lemma same_key_other a b c w i v w' i' v' :
  same_key a b c w i v = true ->
  same_key a b c w' i' v' = same_key w i v w' i' v'.
Proof.
  intros H.
  rewrite (same_key_sym w i v).
  rewrite same_key_sym in H.
  rewrite (same_key_sym _ _ _ w' i' v').
  symmetry. by apply same_key_trans_r.
Qed.

Lemma key_of_row_other w i v w' i' v' r :
  key_of_row w i v r = true ->
  key_of_row w' i' v' r = same_key w i v w' i' v'.
Proof. apply same_key_other. Qed.



Lemma ids_inj (l : list inventory_row) r1 r2 :
  NoDup (List.map inv_id l) -> In r1 l -> In r2 l ->
  inv_id r1 = inv_id r2 -> r1 = r2.
Proof.
  induction l as [|x l IH]; simpl; [done|].
  rewrite NoDup_cons. intros [Hx Hl] [->|H1] [->|H2] E; try done.
  - exfalso. apply Hx. rewrite E. apply list_elem_of_In. by apply List.in_map.
  - exfalso. apply Hx. rewrite <- E. apply list_elem_of_In. by apply List.in_map.
  - by apply IH.
Qed.


Lemma ids_ok_step db w i v q mt rt rid uc user :
  ids_ok db -> ids_ok (fst (update_inventory db w i v q mt rt rid uc user)).
Proof.
  intros [Hnd Hlt].
  destruct (update_inventory_effect db w i v q mt rt rid uc user)
    as (id0 & added & mid & -> & Hcase).
  unfold ids_ok. simpl.
  rewrite List.map_map.
  rewrite (List.map_ext _ inv_id) by (intros r; apply touch_id).
  assert (Hmid : (next_uuid db <= mid)%N)
    by (destruct Hcase as [(_ & _ & _ & _ & ->) | (_ & _ & _ & ->)]; lia).
  split.
  - destruct Hcase as [(_ & _ & _ & -> & _) | (_ & _ & -> & _)].
    + by rewrite app_nil_r.
    + rewrite List.map_app. simpl. apply NoDup_app. split; [done|].
      split; [|apply NoDup_singleton].
      intros x Hx ->%list_elem_of_singleton.
      apply list_elem_of_In, List.in_map_iff in Hx as (r & Hr & Hin).
      rewrite List.Forall_forall in Hlt. specialize (Hlt r Hin). lia.
  - apply List.Forall_map, List.Forall_app. split.
    + eapply List.Forall_impl; [|exact Hlt]. intros r Hr.
      rewrite touch_id. simpl in *. lia.
    + destruct Hcase as [(_ & _ & _ & -> & _) | (_ & _ & -> & ->)];
        constructor; [|constructor].
      rewrite touch_id. simpl. lia.
Qed.







End LedgerProofs.

(** ** Document numbers: properties of the generators *)
Module SequenceProofs.
Import Sequence.

(** *** The generators on a day without documents *)

Lemma generate_transaction_number_first db b c :
  select_branch_code db b = Some c ->
  transactions_of_day db b = [] ->
  generate_transaction_number db b =
  Return (Some
    ((((c +:+ "-") +:+ to_char_YYMMDD (current_date db)) +:+ "-") +:+ "0001")).
Proof.
  intros Hc Hrows. unfold generate_transaction_number.
  by rewrite Hc, Hrows.
Qed.

(** *** The separator is read as a sign *)

Lemma string_app_assoc (a b c : string) : (a +:+ b) +:+ c = a +:+ (b +:+ c).
Proof.
  induction a as [|x a IH]; [done|].
  change (String x ((a +:+ b) +:+ c) = String x (a +:+ (b +:+ c))).
  by rewrite IH.
Qed.

Lemma string_length_app (a b : string) :
  String.length (a +:+ b) = (String.length a + String.length b)%nat.
Proof.
  induction a as [|x a IH]; [done|].
  change (S (String.length (a +:+ b)) = S (String.length a + String.length b)).
  by rewrite IH.
Qed.

Lemma string_drop_app (a b : string) : string_drop (String.length a) (a +:+ b) = b.
Proof. induction a as [|x a IH]; [by destruct b | exact IH]. Qed.

(** On a number of the generated shape the substring starts with the
    separator. *)
Lemma substring_starts_on_separator c n :
  generated_shape c n ->
  exists s,
    sql_substring_from (Some n) (sql_plus (sql_length (Some c)) 8)
    = Some (String "-" s).
Proof.
  intros (d & s & Hd & ->). exists s. simpl. f_equal.
  replace (String.length c + 8 - 1)%nat
    with (String.length ((c +:+ "-") +:+ d)).
  - rewrite (string_app_assoc (_ +:+ d)). by rewrite string_drop_app.
  - rewrite !string_length_app, Hd. simpl. lia.
Qed.

Lemma digits_value_nonneg s : forall acc z,
  0 <= acc -> digits_value acc s = Some z -> 0 <= z.
Proof.
  induction s as [|ch s IH]; simpl; intros acc z Hacc.
  - intros [= <-]. done.
  - destruct (is_digit ch) eqn:Hd; [|done].
    apply IH. unfold is_digit in Hd.
    apply andb_true_iff in Hd as [Hlo _]. apply N.leb_le in Hlo. lia.
Qed.

(** A text that starts with the separator casts to a number that is not
    positive. *)
Lemma cast_separator_nonpositive s z :
  cast_integer (Some (String "-" s)) = Return (Some z) -> z <= 0.
Proof.
  unfold cast_integer, int4_of_text.
  destruct s as [|ch s]; [done|].
  destruct (digits_value 0 (String ch s)) as [v|] eqn:Hv; [|done].
  apply digits_value_nonneg in Hv; [|done].
  destruct (in_int4 (- v)); [|done]. intros [= <-]. lia.
Qed.

Lemma cast_all_nonpositive xs : forall casts,
  Forall (fun x => exists s, x = Some (String "-" s)) xs ->
  cast_all xs = Return casts ->
  Forall (fun c => exists z, c = Some z /\ z <= 0) casts.
Proof.
  induction xs as [|x xs IH]; simpl; intros casts Hxs.
  - intros [= <-]. constructor.
  - apply List.Forall_cons_iff in Hxs as [[s ->] Hxs].
    destruct (cast_integer (Some (String "-" s))) as [|[z|]] eqn:Hz;
      simpl; try done.
    + destruct (cast_all xs) as [|zs] eqn:Hzs; simpl; [done|].
      intros [= <-]. constructor; [|by apply IH].
      exists z. split; [done|]. by eapply cast_separator_nonpositive.
    + exfalso. revert Hz. unfold cast_integer.
      by destruct (int4_of_text _).
Qed.

Lemma sql_max_nonpositive casts :
  Forall (fun c => exists z, c = Some z /\ z <= 0) casts ->
  coalesce (sql_max casts) 0 <= 0.
Proof.
  induction casts as [|c casts IH]; simpl; [done|].
  intros [(z & -> & Hz) Hrest]%List.Forall_cons_iff.
  specialize (IH Hrest).
  destruct (sql_max casts) as [m|]; simpl in *; lia.
Qed.

(** Whatever the day's documents, when they carry numbers of the generated
    shape the generator never returns a numeric part above 1. *)
Lemma generate_transaction_number_at_most_one db b c r :
  select_branch_code db b = Some c ->
  Forall (fun t => generated_shape c (transaction_number t))
    (transactions_of_day db b) ->
  generate_transaction_number db b = Return r ->
  exists v_seq,
    v_seq <= 1 /\
    r = Some ((((c +:+ "-") +:+ to_char_YYMMDD (current_date db)) +:+ "-")
              +:+ lpad (pretty v_seq) 4 "0").
Proof.
  intros Hc Hshape. unfold generate_transaction_number. rewrite Hc.
  destruct (cast_all _) as [|casts] eqn:Hcasts; simpl; [done|].
  assert (Hle : coalesce (sql_max casts) 0 <= 0).
  { apply sql_max_nonpositive. eapply cast_all_nonpositive; [|exact Hcasts].
    apply List.Forall_map. eapply List.Forall_impl; [|exact Hshape].
    intros t Ht. by apply substring_starts_on_separator. }
  unfold int4_succ. destruct (in_int4 _); simpl; [|done].
  intros [= <-]. eexists. split; [|done]. lia.
Qed.

(** C4: the numeric part is not the greatest suffix of the day plus one.
    With BR-251102-0001 stored, [SUBSTRING ... FROM LENGTH(code) + 8] starts
    on the separator, the text "-0001" casts to -1, and the generator
    returns BR-251102-0000 where the claim gives BR-251102-0002; the work
    order generator does the same with [+ 11]; with 0001 and 0000 stored the
    next number is 0001 again. On a day without documents the number is
    0001, as claimed; once the day has documents of the generated shape the
    numeric part returned is never above 1. *)
Theorem generate_number_separator_off_by_one :
  generate_transaction_number db_none 1%N = Return (Some "BR-251102-0001") /\
  sql_substring_from (Some "BR-251102-0001")
    (sql_plus (sql_length (Some "BR")) 8) = Some "-0001" /\
  cast_integer (Some "-0001") = Return (Some (-1)) /\
  generate_transaction_number db_one 1%N = Return (Some "BR-251102-0000") /\
  generate_work_order_number db_one 1%N = Return (Some "WO-BR-251102-0000") /\
  generate_transaction_number db_two 1%N = Return (Some "BR-251102-0001") /\
  (forall db b c r,
     select_branch_code db b = Some c ->
     Forall (fun t => generated_shape c (transaction_number t))
       (transactions_of_day db b) ->
     generate_transaction_number db b = Return r ->
     exists v_seq,
       v_seq <= 1 /\
       r = Some ((((c +:+ "-") +:+ to_char_YYMMDD (current_date db)) +:+ "-")
                 +:+ lpad (pretty v_seq) 4 "0")).
Proof.
  do 6 (split; [vm_compute; reflexivity|]).
  exact generate_transaction_number_at_most_one.
Qed.

Lemma generate_number_separator_off_by_one_witness :
  select_branch_code db_two 1%N = Some "BR" /\
  exists v_seq,
    v_seq <= 1 /\
    Some "BR-251102-0001" =
    Some (((("BR" +:+ "-") +:+ to_char_YYMMDD (current_date db_two)) +:+ "-")
          +:+ lpad (pretty v_seq) 4 "0").
Proof.
  split; [reflexivity|].
  apply (proj2 (proj2 (proj2 (proj2 (proj2 (proj2
           generate_number_separator_off_by_one))))) db_two 1%N "BR"
           (Some "BR-251102-0001")).
  - reflexivity.
  - repeat constructor.
    + by exists "251102", "0001".
    + by exists "251102", "0000".
  - vm_compute. reflexivity.
Defined.

(** *** Callers that overlap *)

(** C5, as stated, fails: two callers that both ask before either inserts
    receive the same number. *)
Lemma concurrent_callers_same_number :
  let st := run 1%N (start db_none) [Generate 0; Generate 1] in
  received st !! 0%nat = Some "BR-251102-0001" /\
  received st !! 1%nat = Some "BR-251102-0001" /\
  ~ (received st !! 0%nat <> received st !! 1%nat).
Proof.
  vm_compute. split; [reflexivity|]. split; [reflexivity|]. intros H. by apply H.
Qed.

Lemma run_generate_only b es :
  forallb is_generate es = true ->
  forall st,
    store (run b st es) = store st /\
    forall c n,
      received (run b st es) !! c = Some n ->
      received st !! c = Some n \/
      generate_transaction_number (store st) b = Return (Some n).
Proof.
  induction es as [|e es IH]; simpl; intros Hall st; [by split; auto|].
  apply andb_true_iff in Hall as [He Hes].
  destruct e as [c0|c0]; [|done]. clear He.
  destruct (IH Hes (step b st (Generate c0))) as [Hst Hrec].
  assert (Hs : store (step b st (Generate c0)) = store st).
  { simpl. by destruct (generate_transaction_number (store st) b) as [|[|]]. }
  split; [by rewrite Hst|].
  intros c n Hn. destruct (Hrec c n Hn) as [H|H].
  - revert H. simpl.
    destruct (generate_transaction_number (store st) b) as [|[n0|]] eqn:Hg;
      simpl; auto.
    rewrite lookup_insert. case_decide; [|by auto].
    intros [= ->]. by right.
  - right. by rewrite <- Hs.
Qed.

Lemma insert_transaction_numbers db b n db' :
  insert_transaction db b n = Return db' ->
  numbers db' = numbers db ++ [n] /\ n ∉ numbers db.
Proof.
  unfold insert_transaction.
  destruct (List.existsb _ _) eqn:Hex; [done|]. intros [= <-].
  unfold numbers. simpl. rewrite List.map_app. split; [done|].
  intros Hin%list_elem_of_In%List.in_map_iff. destruct Hin as (t & <- & Hin).
  assert (List.existsb (fun t0 => String.eqb (transaction_number t0)
                                    (transaction_number t)) (transactions db)
          = true); [|congruence].
  apply List.existsb_exists. exists t. split; [done|]. apply String.eqb_refl.
Qed.

Lemma step_numbers_nodup b st e :
  NoDup (numbers (store st)) -> NoDup (numbers (store (step b st e))).
Proof.
  intros Hnd. destruct e as [c|c]; simpl.
  - by destruct (generate_transaction_number (store st) b) as [|[|]].
  - destruct (received st !! c) as [n|]; [|done].
    destruct (insert_transaction (store st) b n) as [|db'] eqn:Hins; [done|].
    apply insert_transaction_numbers in Hins as [Hnum Hn]. simpl.
    rewrite Hnum. apply NoDup_app. split; [done|]. split; [|apply NoDup_singleton].
    by intros x Hx ->%list_elem_of_singleton.
Qed.

Lemma run_numbers_nodup b es :
  forall st, NoDup (numbers (store st)) -> NoDup (numbers (store (run b st es))).
Proof.
  induction es as [|e es IH]; intros st Hnd; simpl; [done|].
  apply IH. by apply step_numbers_nodup.
Qed.

(** C5 (amended): the generator only reads. Callers that all ask before any
    of them inserts leave the tables as they were and receive one and the
    same number; a number is refused only at the insert, by the UNIQUE
    constraint, so under every schedule the stored numbers stay pairwise
    distinct. *)
Theorem overlapping_callers_share_number b db es :
  (forallb is_generate es = true ->
   store (run b (start db) es) = db /\
   forall c1 c2 n1 n2,
     received (run b (start db) es) !! c1 = Some n1 ->
     received (run b (start db) es) !! c2 = Some n2 ->
     n1 = n2) /\
  (NoDup (numbers db) -> NoDup (numbers (store (run b (start db) es)))).
Proof.
  split.
  - intros Hall. destruct (run_generate_only b es Hall (start db)) as [Hs Hr].
    split; [done|]. intros c1 c2 n1 n2 H1 H2.
    destruct (Hr c1 n1 H1) as [H|G1];
      [simpl in H; by rewrite lookup_empty in H|].
    destruct (Hr c2 n2 H2) as [H|G2];
      [simpl in H; by rewrite lookup_empty in H|].
    congruence.
  - intros Hnd. by apply run_numbers_nodup.
Qed.

Lemma overlapping_callers_share_number_witness :
  (store (run 1%N (start db_one) [Generate 0; Generate 1; Generate 2]) = db_one /\
   forall c1 c2 n1 n2,
     received (run 1%N (start db_one) [Generate 0; Generate 1; Generate 2]) !! c1
       = Some n1 ->
     received (run 1%N (start db_one) [Generate 0; Generate 1; Generate 2]) !! c2
       = Some n2 ->
     n1 = n2) /\
  NoDup (numbers (store (run 1%N (start db_one)
                           [Generate 0; Generate 1; Insert 0; Insert 1]))).
Proof.
  split.
  - apply (proj1 (overlapping_callers_share_number 1%N db_one
                    [Generate 0; Generate 1; Generate 2])). reflexivity.
  - apply (proj2 (overlapping_callers_share_number 1%N db_one
                    [Generate 0; Generate 1; Insert 0; Insert 1])).
    vm_compute. apply NoDup_singleton.
Defined.

End SequenceProofs.

(** ** The audit trigger: properties of [audit_trigger_func] *)
Module AuditProofs.
Import Audit.

Section trigger.

Context {jsonb : Type} `{EqDecision jsonb}.

Lemma changed_fields_list_filter (old_json new_json : gmap string jsonb) :
  changed_fields_list old_json new_json =
  List.map fst
    (List.filter (fun n => is_distinct_from (snd n) (old_json !! fst n))
       (map_to_list new_json)).
Proof.
  unfold changed_fields_list, changed_cols, array_agg.
  by destruct (List.map _ _).
Qed.

(** A field is reported exactly when [NEW] has it with a value that [OLD]
    does not give it. *)
Lemma elem_of_changed_fields (old_json new_json : gmap string jsonb) k :
  k ∈ changed_fields_list old_json new_json <->
  exists v, new_json !! k = Some v /\ old_json !! k <> Some v.
Proof.
  rewrite changed_fields_list_filter, list_elem_of_In, List.in_map_iff.
  split.
  - intros ([k' v] & <- & Hin). apply List.filter_In in Hin as [Hin Hd].
    apply list_elem_of_In, elem_of_map_to_list in Hin.
    exists v. split; [done|]. by apply bool_decide_eq_true in Hd.
  - intros (v & Hnew & Hold). exists (k, v). split; [done|].
    apply List.filter_In. split.
    + by apply list_elem_of_In, elem_of_map_to_list.
    + by apply bool_decide_eq_true.
Qed.

Lemma changed_fields_nodup (old_json new_json : gmap string jsonb) :
  NoDup (changed_fields_list old_json new_json).
Proof.
  rewrite changed_fields_list_filter.
  assert (Hnd : NoDup (List.map fst (map_to_list new_json)))
    by apply (NoDup_fst_map_to_list new_json).
  revert Hnd. generalize (map_to_list new_json). intros l.
  induction l as [|[k v] l IH]; simpl; [done|].
  rewrite NoDup_cons. intros [Hk Hl].
  destruct (is_distinct_from _ _); simpl; [|by apply IH].
  apply NoDup_cons. split; [|by apply IH].
  intros Hin. apply Hk.
  apply list_elem_of_In, List.in_map_iff in Hin as (x & <- & Hx).
  apply List.filter_In in Hx as [Hx _].
  apply list_elem_of_In. by apply List.in_map.
Qed.

(** The audit row an UPDATE appends when one is due. *)
Lemma audit_update_cases TG_TABLE_NAME (OLD NEW : @pg_row jsonb) logs :
  (changed_fields_list (to_jsonb OLD) (to_jsonb NEW) = [] /\
   fst (audit_trigger_func TG_TABLE_NAME (TG_UPDATE OLD NEW) logs) = logs) \/
  (changed_fields_list (to_jsonb OLD) (to_jsonb NEW) <> [] /\
   fst (audit_trigger_func TG_TABLE_NAME (TG_UPDATE OLD NEW) logs) =
   logs ++ [mk_audit TG_TABLE_NAME (id NEW) "UPDATE" (Some (to_jsonb OLD))
              (Some (to_jsonb NEW))
              (Some (changed_fields_list (to_jsonb OLD) (to_jsonb NEW)))]).
Proof.
  unfold audit_trigger_func, changed_fields_list.
  destruct (changed_cols (to_jsonb OLD) (to_jsonb NEW)) as [[|k l]|] eqn:Hc;
    simpl; [left | right | left]; (split; [done || discriminate | reflexivity]).
Qed.

(** C8: for an audited UPDATE ([OLD] and [NEW] are rows of one table, so
    their images have the same fields) the changed-field set is exactly the
    set of fields whose value differs between the two images, that is the
    fields of the symmetric difference of the two records taken as sets of
    (field, value) pairs; when no field differs the trigger records nothing,
    and otherwise it appends one row carrying that set. *)
Theorem audit_update_changed_fields TG_TABLE_NAME (OLD NEW : @pg_row jsonb) logs :
  dom (to_jsonb OLD) = dom (to_jsonb NEW) ->
  let changed := changed_fields_list (to_jsonb OLD) (to_jsonb NEW) in
  let logs' := fst (audit_trigger_func TG_TABLE_NAME (TG_UPDATE OLD NEW) logs) in
  (forall k, k ∈ changed <-> to_jsonb OLD !! k <> to_jsonb NEW !! k) /\
  (forall k, k ∈ changed <->
     exists v, (to_jsonb OLD !! k = Some v /\ to_jsonb NEW !! k <> Some v) \/
               (to_jsonb NEW !! k = Some v /\ to_jsonb OLD !! k <> Some v)) /\
  NoDup changed /\
  ((forall k, to_jsonb OLD !! k = to_jsonb NEW !! k) -> logs' = logs) /\
  ((exists k, to_jsonb OLD !! k <> to_jsonb NEW !! k) ->
   logs' = logs ++ [mk_audit TG_TABLE_NAME (id NEW) "UPDATE"
                      (Some (to_jsonb OLD)) (Some (to_jsonb NEW)) (Some changed)]).
Proof.
  intros Hdom changed logs'. subst changed logs'.
  assert (Hdiff : forall k,
    k ∈ changed_fields_list (to_jsonb OLD) (to_jsonb NEW) <->
    to_jsonb OLD !! k <> to_jsonb NEW !! k).
  { intros k. rewrite elem_of_changed_fields. split.
    - intros (v & Hn & Ho). congruence.
    - intros Hne. destruct (to_jsonb NEW !! k) as [v|] eqn:Hn.
      + exists v. by split.
      + exfalso. apply Hne. apply not_elem_of_dom.
        rewrite Hdom. by apply not_elem_of_dom. }
  split; [exact Hdiff|]. split; [|split; [apply changed_fields_nodup|split]].
  - intros k. rewrite Hdiff. split.
    + intros Hne. destruct (to_jsonb OLD !! k) as [v|] eqn:Ho.
      * exists v. left. split; [done|]. congruence.
      * destruct (to_jsonb NEW !! k) as [v|] eqn:Hn; [|done].
        exists v. right. by split.
    + intros (v & [[Ho Hn] | [Hn Ho]]); congruence.
  - intros Hsame.
    destruct (audit_update_cases TG_TABLE_NAME OLD NEW logs)
      as [[_ ->] | [Hne _]]; [done|].
    exfalso. apply Hne.
    destruct (changed_fields_list _ _) as [|k l] eqn:Hl; [done|].
    assert (Hk : k ∈ k :: l) by left.
    apply Hdiff in Hk. by specialize (Hsame k).
  - intros (k & Hk%Hdiff).
    destruct (audit_update_cases TG_TABLE_NAME OLD NEW logs)
      as [[Hnil _] | [_ ->]]; [|done].
    rewrite Hnil in Hk. by apply elem_of_nil in Hk.
Qed.

End trigger.

Lemma audit_update_changed_fields_witness :
  changed_fields_list (to_jsonb example_old) (to_jsonb example_new) = ["quantity"] /\
  (forall k, k ∈ changed_fields_list (to_jsonb example_old) (to_jsonb example_new)
             <-> to_jsonb example_old !! k <> to_jsonb example_new !! k) /\
  fst (audit_trigger_func "inventory" (TG_UPDATE example_old example_old) []) = [].
Proof.
  assert (Hdom : dom (to_jsonb example_old) = dom (to_jsonb example_new))
    by (vm_compute; reflexivity).
  assert (Hsame : dom (to_jsonb example_old) = dom (to_jsonb example_old))
    by reflexivity.
  split; [vm_compute; reflexivity|]. split.
  - exact (proj1 (audit_update_changed_fields "inventory" example_old
                    example_new [] Hdom)).
  - exact (proj1 (proj2 (proj2 (proj2
             (audit_update_changed_fields "inventory" example_old example_old
                [] Hsame)))) (fun k => eq_refl)).
Defined.

End AuditProofs.

(** ** The POS module: properties of the cart, totals and payment *)
Module POSProofs.
Import POS.

(** *** Totals *)



(** *** Payment *)



(** *** Cart operations *)

(** [update_first] changes the entry [find] returns and nothing else. *)
Lemma update_first_find p f l x :
  List.find p l = Some x ->
  exists l1 l2,
    l = l1 ++ x :: l2 /\
    update_first p f l = l1 ++ f x :: l2 /\
    List.find p l1 = None.
Proof.
  induction l as [|y l IH]; simpl; [done|].
  destruct (p y) eqn:Hy.
  - intros [= ->]. by exists [], l.
  - intros Hx. destruct (IH Hx) as (l1 & l2 & -> & Hu & Hn).
    exists (y :: l1), l2. simpl. rewrite Hu, Hy. done.
Qed.

Lemma find_app_none {A} (p : A -> bool) (l1 l2 : list A) :
  List.find p l1 = None -> List.find p (l1 ++ l2) = List.find p l2.
Proof.
  induction l1 as [|x l1 IH]; simpl; [done|]. by destruct (p x).
Qed.

Lemma has_id_add_quantity itemId d item :
  has_id itemId (add_quantity d item) = has_id itemId item.
Proof. reflexivity. Qed.

Lemma find_has_id itemId l x : List.find (has_id itemId) l = Some x -> has_id itemId x = true.
Proof. intros H. by apply List.find_some in H as [_ H]. Qed.







End POSProofs.

(** ** The stock ledger, continued: properties along runs of calls *)
Module LedgerExtProofs.
Import Ledger LedgerExt LedgerProofs.



Lemma ids_ok_run cs : forall db, ids_ok db -> ids_ok (run_calls db cs).
Proof.
  induction cs as [|c cs IH]; intros db Hok; simpl; [done|].
  apply IH. unfold run_call. by apply ids_ok_step.
Qed.








(** A call leaves the row of every other key as it was. *)
Lemma update_inventory_select_other db w i v q mt rt rid uc user w' i' v' :
  ids_ok db -> same_key w i v w' i' v' = false ->
  select_inventory
    (inventory (fst (update_inventory db w i v q mt rt rid uc user))) w' i' v' =
  select_inventory (inventory db) w' i' v'.
Proof.
  intros [Hnd Hlt] Hne.
  destruct (update_inventory_effect db w i v q mt rt rid uc user)
    as (id0 & added & mid & -> & Hcase).
  simpl. rewrite select_touch.
  assert (Hfind : select_inventory (inventory db ++ added) w' i' v' =
                  select_inventory (inventory db) w' i' v').
  { destruct Hcase as [(_ & _ & _ & -> & _) | (_ & _ & -> & _)].
    - by rewrite app_nil_r.
    - unfold select_inventory. rewrite find_snoc.
      destruct (List.find _ (inventory db)); [done|].
      unfold key_of_row. simpl. by rewrite Hne. }
  rewrite Hfind.
  destruct (select_inventory (inventory db) w' i' v') as [r'|] eqn:Hsel'; [|done].
  simpl. f_equal. apply touch_miss.
  apply List.find_some in Hsel' as [Hin' Hk'].
  destruct Hcase as [(r & Hsel & -> & _) | (_ & -> & _)].
  - apply List.find_some in Hsel as [Hin Hk]. intros E.
    assert (r' = r) as -> by by eapply ids_inj.
    rewrite (key_of_row_other _ _ _ _ _ _ _ Hk) in Hk'. congruence.
  - rewrite List.Forall_forall in Hlt. specialize (Hlt r' Hin'). simpl in Hlt. lia.
Qed.

(** X3: a call touches one key only. The row, the quantity on hand and the
    movements of every other key are the same after the call as before. *)
Theorem update_inventory_other_keys_untouched
    db w i v q mt rt rid uc user w' i' v' :
  ids_ok db -> same_key w i v w' i' v' = false ->
  let db' := fst (update_inventory db w i v q mt rt rid uc user) in
  select_inventory (inventory db') w' i' v' =
    select_inventory (inventory db) w' i' v' /\
  on_hand db' w' i' v' = on_hand db w' i' v' /\
  movements_of db' w' i' v' = movements_of db w' i' v'.
Proof.
  intros Hids Hne db'. subst db'. split; [|split].
  - by apply update_inventory_select_other.
  - unfold on_hand. by rewrite update_inventory_select_other.
  - destruct (update_inventory_appends db w i v q mt rt rid uc user)
      as (m0 & Hm & _ & Hk0 & _).
    unfold movements_of. rewrite Hm, List.filter_app. simpl.
    assert (Hkey : key_of_movement w' i' v' m0 = same_key w i v w' i' v')
      by by apply same_key_other.
    by rewrite Hkey, Hne, app_nil_r.
Qed.

Lemma update_inventory_other_keys_untouched_witness :
  ids_ok example_db /\
  on_hand (fst (update_inventory example_db 1%N 2%N None 7000 mt_in None None
                  None None)) 1%N 1%N None = on_hand example_db 1%N 1%N None.
Proof.
  assert (H0 : ids_ok example_db).
  { split.
    - apply NoDup_singleton.
    - constructor; [simpl; lia | constructor]. }
  split; [exact H0|].
  apply (update_inventory_other_keys_untouched example_db 1%N 2%N None 7000
           mt_in None None None None 1%N 1%N None H0).
  reflexivity.
Defined.




Lemma touch_fields id q t r :
  inv_warehouse_id (touch id q t r) = inv_warehouse_id r /\
  inv_item_id (touch id q t r) = inv_item_id r /\
  inv_variant_id (touch id q t r) = inv_variant_id r.
Proof. unfold touch. by destruct (inv_id r =? id)%N. Qed.

Lemma keys_distinct_touch id q t inv :
  keys_distinct inv -> keys_distinct (List.map (touch id q t) inv).
Proof.
  induction inv as [|r inv IH]; simpl; [done|]. intros [Hr Hrest].
  split; [|by apply IH].
  destruct (touch_fields id q t r) as (-> & -> & ->).
  apply List.Forall_map. eapply List.Forall_impl; [|exact Hr].
  intros r' Hr'. by rewrite touch_key.
Qed.

Lemma keys_distinct_snoc inv r0 :
  keys_distinct inv ->
  select_inventory inv (inv_warehouse_id r0) (inv_item_id r0) (inv_variant_id r0)
    = None ->
  keys_distinct (inv ++ [r0]).
Proof.
  induction inv as [|r inv IH]; simpl; [done|]. intros [Hr Hrest].
  unfold select_inventory in *. simpl.
  destruct (key_of_row _ _ _ r) eqn:Hk; [done|]. intros Hnone.
  split; [|by apply IH].
  apply List.Forall_app. split; [done|]. constructor; [|constructor].
  unfold key_of_row in *. by rewrite same_key_sym.
Qed.

(** X5: one row per key. A call adds a row only when the key has none, and
    then exactly one; when no two rows answer the same lookup before the
    call, none do after it, and none ever do in a database built by calls
    from the empty one. *)
Theorem update_inventory_one_row_per_key :
  (forall db w i v q mt rt rid uc user,
     length (inventory (fst (update_inventory db w i v q mt rt rid uc user))) =
     match select_inventory (inventory db) w i v with
     | Some _ => length (inventory db)
     | None => S (length (inventory db))
     end) /\
  (forall db w i v q mt rt rid uc user,
     keys_distinct (inventory db) ->
     keys_distinct (inventory (fst (update_inventory db w i v q mt rt rid uc user)))) /\
  (forall t cs, keys_distinct (inventory (run_calls (empty_db t) cs))).
Proof.
  assert (Hstep : forall db w i v q mt rt rid uc user,
    keys_distinct (inventory db) ->
    keys_distinct (inventory (fst (update_inventory db w i v q mt rt rid uc user)))).
  { intros db w i v q mt rt rid uc user Hd.
    destruct (update_inventory_effect db w i v q mt rt rid uc user)
      as (id0 & added & mid & -> & Hcase). simpl.
    apply keys_distinct_touch.
    destruct Hcase as [(_ & _ & _ & -> & _) | (Hsel & _ & -> & _)].
    - by rewrite app_nil_r.
    - by apply keys_distinct_snoc. }
  split; [|split; [exact Hstep|]].
  - intros db w i v q mt rt rid uc user.
    destruct (update_inventory_effect db w i v q mt rt rid uc user)
      as (id0 & added & mid & -> & Hcase). simpl.
    rewrite List.length_map, List.length_app.
    destruct Hcase as [(r & -> & _ & -> & _) | (-> & _ & -> & _)]; simpl; lia.
  - intros t cs.
    assert (H : forall db, keys_distinct (inventory db) ->
                           keys_distinct (inventory (run_calls db cs))).
    { induction cs as [|c cs IH]; intros db Hd; simpl; [done|].
      apply IH. unfold run_call. by apply Hstep. }
    by apply H.
Qed.

Lemma update_inventory_one_row_per_key_witness :
  keys_distinct (inventory example_db) /\
  keys_distinct
    (inventory (fst (update_inventory example_db 1%N 1%N (Some 0%N) 1000 mt_in
                       None None None None))) /\
  length (inventory (fst (update_inventory example_db 1%N 1%N (Some 0%N) 1000
                            mt_in None None None None))) = 1%nat.
Proof.
  assert (H0 : keys_distinct (inventory example_db)) by (simpl; by split).
  split; [exact H0|]. split; [|reflexivity].
  by apply (proj1 (proj2 update_inventory_one_row_per_key) example_db).
Defined.


Lemma defaults_kept_touch id q t r : defaults_kept r -> defaults_kept (touch id q t r).
Proof.
  unfold touch, defaults_kept. destruct (inv_id r =? id)%N; [|done].
  simpl. intros (-> & _ & ->). repeat split. lia.
Qed.

Lemma defaults_kept_step db w i v q mt rt rid uc user :
  Forall defaults_kept (inventory db) ->
  Forall defaults_kept
    (inventory (fst (update_inventory db w i v q mt rt rid uc user))).
Proof.
  intros Hd.
  destruct (update_inventory_effect db w i v q mt rt rid uc user)
    as (id0 & added & mid & -> & Hcase). simpl.
  apply List.Forall_map, List.Forall_app. split.
  - eapply List.Forall_impl; [|exact Hd]. intros r. apply defaults_kept_touch.
  - destruct Hcase as [(_ & _ & _ & -> & _) | (_ & _ & -> & _)]; [constructor|].
    constructor; [|constructor]. by apply defaults_kept_touch.
Qed.

(** X7: stock built by [update_inventory] alone has no value in
    [v_inventory_summary]. From the empty database, after any run of calls,
    every row of the view has [reserved_quantity] 0, [available_quantity]
    equal to [quantity], [avg_cost] 0 and [inventory_value] 0, whatever unit
    costs the calls carried. *)
Theorem inventory_value_stays_zero t cs :
  Forall
    (fun s =>
       vs_reserved_quantity s = 0 /\
       vs_available_quantity s = vs_quantity s /\
       vs_avg_cost s = Some 0 /\
       inventory_value s = Some 0)
    (v_inventory_summary (run_calls (empty_db t) cs)).
Proof.
  assert (H : forall db, Forall defaults_kept (inventory db) ->
                         Forall defaults_kept (inventory (run_calls db cs))).
  { induction cs as [|c cs IH]; intros db Hd; simpl; [done|].
    apply IH. unfold run_call. by apply defaults_kept_step. }
  specialize (H (empty_db t) ltac:(constructor)).
  unfold v_inventory_summary. apply List.Forall_map.
  eapply List.Forall_impl; [|exact H].
  intros r (Hr & Ha & Hc). simpl. rewrite Hc. repeat split; try done.
  f_equal. lia.
Qed.

End LedgerExtProofs.

(** ** Document numbers, continued: edge cases and what the generators can
       return *)
Module SequenceExtProofs.
Import Sequence SequenceExt SequenceProofs.

Lemma string_take_length n : forall s,
  (n <= String.length s)%nat -> String.length (string_take n s) = n.
Proof.
  induction n as [|n IH]; intros s Hn; [done|].
  destruct s as [|ch s]; simpl in *; [lia|]. rewrite IH; lia.
Qed.

Lemma string_rep_length n ch : String.length (string_rep n ch) = n.
Proof. induction n as [|n IH]; simpl; [done|]. by rewrite IH. Qed.

Lemma lpad_length s n fill : String.length (lpad s n fill) = n.
Proof.
  unfold lpad. destruct (n <=? String.length s)%nat eqn:Hn.
  - apply string_take_length. by apply Nat.leb_le.
  - apply Nat.leb_gt in Hn.
    rewrite string_length_app, string_rep_length. lia.
Qed.

Lemma to_char_YYMMDD_length d : String.length (to_char_YYMMDD d) = 6%nat.
Proof.
  unfold to_char_YYMMDD, two_digits.
  by rewrite !string_length_app, !lpad_length.
Qed.


Lemma cast_all_nulls {A} (l : list A) :
  cast_all (List.map (fun _ => None) l) = Return (List.map (fun _ => None) l).
Proof. induction l as [|x l IH]; simpl; [done|]. by rewrite IH. Qed.

Lemma sql_max_nulls {A} (l : list A) : sql_max (List.map (fun _ => None) l) = None.
Proof. induction l as [|x l IH]; simpl; done. Qed.

(** X8: an unknown branch gives NULL, not an error. When no branch has the
    identifier, both generators return NULL whatever documents are stored,
    malformed numbers included. *)
Theorem generators_unknown_branch_null db b :
  select_branch_code db b = None ->
  generate_transaction_number db b = Return None /\
  generate_work_order_number db b = Return None.
Proof.
  intros Hc. unfold generate_transaction_number, generate_work_order_number.
  rewrite Hc. simpl. split.
  - rewrite cast_all_nulls. simpl. by rewrite sql_max_nulls.
  - rewrite cast_all_nulls. simpl. by rewrite sql_max_nulls.
Qed.

Lemma generators_unknown_branch_null_witness :
  generate_transaction_number db_two 9%N = Return None /\
  generate_work_order_number db_two 9%N = Return None.
Proof. apply generators_unknown_branch_null. reflexivity. Defined.

(** X9: the shape of every number returned. A number the transaction
    generator returns is the branch code, "-", the six characters of the
    date, "-", and exactly four characters; a work order number is the same
    after "WO-". The numeric part is cut or filled to four characters
    whatever its value. *)
Theorem generated_numbers_have_fixed_shape db b n :
  (generate_transaction_number db b = Return (Some n) ->
   exists c s,
     select_branch_code db b = Some c /\
     String.length s = 4%nat /\
     n = (((c +:+ "-") +:+ to_char_YYMMDD (current_date db)) +:+ "-") +:+ s /\
     String.length n = (String.length c + 12)%nat) /\
  (generate_work_order_number db b = Return (Some n) ->
   exists c s,
     select_branch_code db b = Some c /\
     String.length s = 4%nat /\
     n = (((("WO-" +:+ c) +:+ "-") +:+ to_char_YYMMDD (current_date db)) +:+ "-")
         +:+ s /\
     String.length n = (String.length c + 15)%nat).
Proof.
  split.
  - unfold generate_transaction_number.
    destruct (select_branch_code db b) as [c|] eqn:Hc.
    + destruct (cast_all _) as [|casts]; simpl; [done|].
      destruct (int4_succ _) as [|v_seq]; simpl; [done|].
      intros [= <-]. exists c, (lpad (pretty v_seq) 4 "0").
      split; [done|]. split; [apply lpad_length|]. split; [done|].
      rewrite !string_length_app, lpad_length, to_char_YYMMDD_length. simpl. lia.
    + destruct (cast_all _) as [|casts]; simpl; [done|].
      by destruct (int4_succ _).
  - unfold generate_work_order_number.
    destruct (select_branch_code db b) as [c|] eqn:Hc.
    + destruct (cast_all _) as [|casts]; simpl; [done|].
      destruct (int4_succ _) as [|v_seq]; simpl; [done|].
      intros [= <-]. exists c, (lpad (pretty v_seq) 4 "0").
      split; [done|]. split; [apply lpad_length|]. split; [done|].
      rewrite !string_length_app, lpad_length, to_char_YYMMDD_length. simpl. lia.
    + destruct (cast_all _) as [|casts]; simpl; [done|].
      by destruct (int4_succ _).
Qed.

Lemma generated_numbers_have_fixed_shape_witness :
  exists c s,
    select_branch_code db_one 1%N = Some c /\
    String.length s = 4%nat /\
    "BR-251102-0000" =
      (((c +:+ "-") +:+ to_char_YYMMDD (current_date db_one)) +:+ "-") +:+ s /\
    String.length "BR-251102-0000" = (String.length c + 12)%nat.
Proof.
  apply (proj1 (generated_numbers_have_fixed_shape db_one 1%N "BR-251102-0000")).
  vm_compute. reflexivity.
Defined.




(** X11: the work order generator reads the separator as a sign too. Once
    the work orders of the branch and day carry numbers of the generated
    shape, the numeric part it returns is never above 1. *)
Theorem generate_work_order_number_at_most_one db b c r :
  select_branch_code db b = Some c ->
  Forall (fun w => generated_shape ("WO-" +:+ c) (work_order_number w))
    (work_orders_of_day db b) ->
  generate_work_order_number db b = Return r ->
  exists v_seq,
    v_seq <= 1 /\
    r = Some ((((("WO-" +:+ c) +:+ "-") +:+ to_char_YYMMDD (current_date db))
               +:+ "-") +:+ lpad (pretty v_seq) 4 "0").
Proof.
  intros Hc Hshape. unfold generate_work_order_number. rewrite Hc.
  fold (work_orders_of_day db b).
  destruct (cast_all _) as [|casts] eqn:Hcasts; simpl; [done|].
  assert (Hle : coalesce (sql_max casts) 0 <= 0).
  { apply sql_max_nonpositive. eapply cast_all_nonpositive; [|exact Hcasts].
    apply List.Forall_map. eapply List.Forall_impl; [|exact Hshape].
    intros w Hw. apply substring_starts_on_separator in Hw as [s Hs].
    exists s. rewrite <- Hs. unfold sql_substring_from, sql_plus, sql_length.
    rewrite string_length_app. simpl String.length.
    by replace (String.length c + 11 - 1)%nat
      with (3 + String.length c + 8 - 1)%nat by lia. }
  unfold int4_succ. destruct (in_int4 _); simpl; [|done].
  intros [= <-]. eexists. split; [|done]. lia.
Qed.

Lemma generate_work_order_number_at_most_one_witness :
  exists v_seq,
    v_seq <= 1 /\
    Some "WO-BR-251102-0000" =
    Some ((((("WO-" +:+ "BR") +:+ "-") +:+ to_char_YYMMDD (current_date db_one))
           +:+ "-") +:+ lpad (pretty v_seq) 4 "0").
Proof.
  apply (generate_work_order_number_at_most_one db_one 1%N "BR").
  - reflexivity.
  - repeat constructor. by exists "251102", "0001".
  - vm_compute. reflexivity.
Defined.

Lemma date_eqb_refl d : date_eqb d d = true.
Proof. unfold date_eqb. by rewrite !Nat.eqb_refl. Qed.

Lemma substring_of_generated c d s :
  String.length d = 6%nat ->
  sql_substring_from (Some ((((c +:+ "-") +:+ d) +:+ "-") +:+ s))
    (sql_plus (sql_length (Some c)) 8) = Some (String "-" s).
Proof.
  intros Hd. simpl. f_equal.
  replace (String.length c + 8 - 1)%nat
    with (String.length ((c +:+ "-") +:+ d)).
  - rewrite (string_app_assoc (_ +:+ d)). by rewrite string_drop_app.
  - rewrite !string_length_app, Hd. simpl. lia.
Qed.

Lemma cast_all_two_numbers xs :
  Forall (fun x => x = Some "-0001" \/ x = Some "-0000") xs ->
  exists casts,
    cast_all xs = Return casts /\
    (coalesce (sql_max casts) 0 = 0 \/ coalesce (sql_max casts) 0 = -1).
Proof.
  induction xs as [|x xs IH]; simpl.
  - intros _. exists []. by split; [|left].
  - intros [Hx Hxs]%List.Forall_cons_iff.
    destruct (IH Hxs) as (casts & -> & Hmax).
    destruct Hx as [-> | ->]; simpl.
    + exists (Some (-1) :: casts). split; [done|]. simpl.
      destruct (sql_max casts) as [m|]; simpl in *; lia.
    + exists (Some 0 :: casts). split; [done|]. simpl.
      destruct (sql_max casts) as [m|]; simpl in *; lia.
Qed.

(** With only the numbers 0001 and 0000 stored for the day, the generator
    returns 0001 or 0000. *)
Lemma generate_two_values db b c :
  select_branch_code db b = Some c ->
  Forall
    (fun t => transaction_number t = number_0001 db c \/
              transaction_number t = number_0000 db c)
    (transactions_of_day db b) ->
  generate_transaction_number db b = Return (Some (number_0001 db c)) \/
  generate_transaction_number db b = Return (Some (number_0000 db c)).
Proof.
  intros Hc Hrows. unfold generate_transaction_number. rewrite Hc.
  destruct (cast_all_two_numbers
              (List.map
                 (fun t => sql_substring_from (Some (transaction_number t))
                             (sql_plus (sql_length (Some c)) 8))
                 (transactions_of_day db b))) as (casts & -> & Hmax).
  { apply List.Forall_map. eapply List.Forall_impl; [|exact Hrows].
    intros t [-> | ->]; [left | right];
      apply substring_of_generated, to_char_YYMMDD_length. }
  simpl. destruct Hmax as [-> | ->]; [left | right]; reflexivity.
Qed.

Lemma transactions_of_day_insert db b n db' :
  insert_transaction db b n = Return db' ->
  branches db' = branches db /\ current_date db' = current_date db /\
  transactions_of_day db' b =
    transactions_of_day db b ++ [mk_transaction b n (current_date db)].
Proof.
  unfold insert_transaction. destruct (List.existsb _ _); [done|].
  intros [= <-]. repeat split. unfold transactions_of_day. simpl.
  rewrite List.filter_app. simpl. by rewrite N.eqb_refl, date_eqb_refl.
Qed.

Lemma day_invariant_step db0 b c st e :
  select_branch_code db0 b = Some c ->
  day_invariant db0 b c st -> day_invariant db0 b c (step b st e).
Proof.
  intros Hc (Hbr & Hdate & Hnd & Hday & Hrec).
  assert (Hc' : select_branch_code (store st) b = Some c)
    by (unfold select_branch_code in *; by rewrite Hbr).
  assert (Hn1 : number_0001 (store st) c = number_0001 db0 c)
    by (unfold number_0001; by rewrite Hdate).
  assert (Hn0 : number_0000 (store st) c = number_0000 db0 c)
    by (unfold number_0000; by rewrite Hdate).
  destruct e as [k|k]; simpl.
  - destruct (generate_two_values (store st) b c Hc') as [Hg|Hg];
      [by rewrite Hn1, Hn0 | |]; rewrite Hg; simpl.
    + split; [done|]. split; [done|]. split; [done|]. split; [done|].
      intros k' n. simpl. rewrite lookup_insert. case_decide; [|by apply Hrec].
      intros [= <-]. by left.
    + split; [done|]. split; [done|]. split; [done|]. split; [done|].
      intros k' n. simpl. rewrite lookup_insert. case_decide; [|by apply Hrec].
      intros [= <-]. by right.
  - destruct (received st !! k) as [n|] eqn:Hk; [|done].
    destruct (insert_transaction (store st) b n) as [|db'] eqn:Hins; [done|].
    destruct (transactions_of_day_insert _ _ _ _ Hins) as (Hb' & Hd' & Hday').
    destruct (insert_transaction_numbers _ _ _ _ Hins) as [Hnum Hfresh].
    unfold day_invariant. simpl. split; [|split; [|split; [|split]]].
    + by rewrite Hb'.
    + by rewrite Hd'.
    + rewrite Hnum. apply NoDup_app. split; [done|].
      split; [|apply NoDup_singleton].
      by intros x Hx ->%list_elem_of_singleton.
    + rewrite Hday'. apply List.Forall_app. split; [done|].
      constructor; [|constructor]. simpl. by apply (Hrec k).
    + done.
Qed.

Lemma day_invariant_run db0 b c es : forall st,
  select_branch_code db0 b = Some c ->
  day_invariant db0 b c st -> day_invariant db0 b c (run b st es).
Proof.
  induction es as [|e es IH]; intros st Hc Hinv; simpl; [done|].
  apply IH; [done|]. by apply day_invariant_step.
Qed.

Lemma nodup_two_values (a b : string) (l : list string) :
  NoDup l -> Forall (fun x => x = a \/ x = b) l -> (length l <= 2)%nat.
Proof.
  intros Hnd Hl.
  destruct l as [|x [|y [|z l]]]; simpl; try lia. exfalso.
  apply NoDup_cons in Hnd as [Hx Hnd]. apply NoDup_cons in Hnd as [Hy _].
  apply List.Forall_cons_iff in Hl as [Hxv Hl].
  apply List.Forall_cons_iff in Hl as [Hyv Hl].
  apply List.Forall_cons_iff in Hl as [Hzv _].
  assert (x <> y) by (intros ->; apply Hx; left).
  assert (x <> z) by (intros ->; apply Hx; right; left).
  assert (y <> z) by (intros ->; apply Hy; left).
  destruct Hxv, Hyv, Hzv; congruence.
Qed.

Lemma nodup_numbers_of_day db b :
  NoDup (numbers db) ->
  NoDup (List.map transaction_number (transactions_of_day db b)).
Proof.
  unfold numbers, transactions_of_day.
  induction (transactions db) as [|t ts IH]; simpl; [done|].
  rewrite NoDup_cons. intros [Ht Hts].
  destruct (_ && _); simpl; [|by apply IH].
  apply NoDup_cons. split; [|by apply IH].
  intros Hin. apply Ht.
  apply list_elem_of_In, List.in_map_iff in Hin as (t' & <- & Hin').
  apply List.filter_In in Hin' as [Hin' _].
  apply list_elem_of_In. by apply List.in_map.
Qed.

(** X12: no third document of a day. On a day that starts without
    documents of the branch, under every schedule of generate and insert
    steps, the generator only ever hands out the numbers 0001 and 0000, so
    at most two transactions of the day are stored; every later insert is
    refused by the UNIQUE constraint. *)
Theorem at_most_two_documents_a_day db b c es :
  select_branch_code db b = Some c ->
  transactions_of_day db b = [] ->
  NoDup (numbers db) ->
  (length (transactions_of_day (store (run b (start db) es)) b) <= 2)%nat /\
  Forall
    (fun t => transaction_number t = number_0001 db c \/
              transaction_number t = number_0000 db c)
    (transactions_of_day (store (run b (start db) es)) b) /\
  forall k n, received (run b (start db) es) !! k = Some n ->
              n = number_0001 db c \/ n = number_0000 db c.
Proof.
  intros Hc Hempty Hnd.
  destruct (day_invariant_run db b c es (start db) Hc)
    as (_ & _ & Hnd' & Hday & Hrec).
  { unfold day_invariant. simpl. rewrite Hempty.
    split; [done|]. split; [done|]. split; [done|]. split; [constructor|].
    intros k n. by rewrite lookup_empty. }
  split; [|by split].
  rewrite <- (List.length_map transaction_number).
  apply (nodup_two_values (number_0001 db c) (number_0000 db c)).
  - by apply nodup_numbers_of_day.
  - by apply List.Forall_map.
Qed.

Lemma at_most_two_documents_a_day_witness :
  (length
     (transactions_of_day
        (store (run 1%N (start db_none)
                  [Generate 0; Insert 0; Generate 1; Insert 1; Generate 2;
                   Insert 2; Generate 3; Insert 3])) 1%N) <= 2)%nat /\
  numbers
    (store (run 1%N (start db_none)
              [Generate 0; Insert 0; Generate 1; Insert 1; Generate 2;
               Insert 2; Generate 3; Insert 3]))
  = ["BR-251102-0001"; "BR-251102-0000"].
Proof.
  split; [|vm_compute; reflexivity].
  apply (at_most_two_documents_a_day db_none 1%N "BR").
  - reflexivity.
  - reflexivity.
  - apply NoDup_nil_2.
Defined.

End SequenceExtProofs.

(** ** The audit trigger, continued: properties *)
Module AuditExtProofs.
Import Audit AuditExt AuditProofs.

Section triggers.

Context {jsonb : Type} `{EqDecision jsonb}.
Context (timestamptz_to_jsonb : timestamptz -> jsonb).

(** X13: the [updated_at] trigger makes nearly every UPDATE audited. On a
    table with both triggers, an UPDATE at a [NOW()] that differs from the
    stored [updated_at] appends exactly one audit row, with "updated_at"
    among its changed fields, even when the statement changed no column;
    an UPDATE that changes nothing at the stored [updated_at] records
    nothing. *)
Theorem update_with_triggers_audits_updated_at TG_TABLE_NAME now
    (OLD NEW : @pg_row jsonb) logs :
  (to_jsonb OLD !! "updated_at" <> Some (timestamptz_to_jsonb now) ->
   exists fields,
     fst (update_with_triggers timestamptz_to_jsonb TG_TABLE_NAME now OLD NEW logs) =
       logs ++ [mk_audit TG_TABLE_NAME (id NEW) "UPDATE" (Some (to_jsonb OLD))
                  (Some (<["updated_at" := timestamptz_to_jsonb now]> (to_jsonb NEW)))
                  (Some fields)] /\
     "updated_at" ∈ fields) /\
  (to_jsonb OLD !! "updated_at" = Some (timestamptz_to_jsonb now) ->
   to_jsonb NEW = to_jsonb OLD ->
   fst (update_with_triggers timestamptz_to_jsonb TG_TABLE_NAME now OLD NEW logs) = logs).
Proof.
  unfold update_with_triggers. split.
  - intros Hne.
    assert (Hin : "updated_at" ∈
              changed_fields_list (to_jsonb OLD)
                (to_jsonb (update_updated_at timestamptz_to_jsonb now NEW))).
    { apply elem_of_changed_fields. exists (timestamptz_to_jsonb now).
      split; [|done]. simpl. apply lookup_insert_eq. }
    destruct (audit_update_cases TG_TABLE_NAME OLD
                (update_updated_at timestamptz_to_jsonb now NEW) logs)
      as [[Hnil _] | [_ ->]].
    + rewrite Hnil in Hin. by apply elem_of_nil in Hin.
    + eexists. split; [done|]. exact Hin.
  - intros Hsame Himg.
    destruct (audit_update_cases TG_TABLE_NAME OLD
                (update_updated_at timestamptz_to_jsonb now NEW) logs)
      as [[_ ->] | [Hne _]]; [done|].
    exfalso. apply Hne.
    destruct (changed_fields_list _ _) as [|k l] eqn:Hl; [done|].
    assert (Hk : k ∈ changed_fields_list (to_jsonb OLD)
                   (to_jsonb (update_updated_at timestamptz_to_jsonb now NEW)))
      by (rewrite Hl; left).
    apply elem_of_changed_fields in Hk as (v & Hnew & Hold).
    simpl in Hnew. rewrite Himg, insert_id in Hnew by done. congruence.
Qed.

Lemma audit_row_ok_fire (logs : list (@audit_log jsonb)) ev :
  Forall audit_row_ok logs -> Forall audit_row_ok (fire logs ev).
Proof.
  intros Hok. destruct ev as [tbl [NEW|OLD NEW|OLD]]; unfold fire; simpl.
  - apply List.Forall_app. split; [done|]. constructor; [|constructor].
    left. simpl. eauto.
  - destruct (changed_cols (to_jsonb OLD) (to_jsonb NEW)) as [[|k l]|];
      simpl; try done.
    apply List.Forall_app. split; [done|]. constructor; [|constructor].
    right; left. simpl. eauto 10.
  - apply List.Forall_app. split; [done|]. constructor; [|constructor].
    right; right. simpl. eauto.
Qed.

Lemma fire_length (logs : list (@audit_log jsonb)) ev :
  exists added,
    fire logs ev = logs ++ added /\
    (length added <= 1)%nat /\
    (is_update ev = false -> length added = 1%nat).
Proof.
  destruct ev as [tbl [NEW|OLD NEW|OLD]]; unfold fire, is_update; simpl.
  - eexists. split; [done|]. by split.
  - destruct (changed_cols (to_jsonb OLD) (to_jsonb NEW)) as [[|k l]|]; simpl.
    + exists []. rewrite app_nil_r. split; [done|]. split; [simpl; lia | done].
    + eexists. split; [done|]. split; [simpl; lia | done].
    + exists []. rewrite app_nil_r. split; [done|]. split; [simpl; lia | done].
  - eexists. split; [done|]. by split.
Qed.

(** X14: the audit log only grows, by rows of three kinds. Whatever row
    events fire, the rows already in [audit_logs] stay in place, at most
    one row is appended per event and exactly one per INSERT or DELETE, and
    every row is an INSERT row with only the new image, a DELETE row with
    only the old image, or an UPDATE row with both images and a changed
    field list that is not empty. *)
Theorem audit_log_append_only (logs : list (@audit_log jsonb)) evs :
  (exists added,
     fire_all logs evs = logs ++ added /\
     (length added <= length evs)%nat /\
     (forallb (fun ev => negb (is_update ev)) evs = true ->
      length added = length evs)) /\
  (Forall audit_row_ok logs -> Forall audit_row_ok (fire_all logs evs)).
Proof.
  split.
  - revert logs. induction evs as [|ev evs IH]; intros logs; simpl.
    + exists []. by rewrite app_nil_r.
    + destruct (fire_length logs ev) as (a1 & -> & Hlen1 & Hex1).
      destruct (IH (logs ++ a1)) as (a2 & -> & Hlen2 & Hex2).
      exists (a1 ++ a2). rewrite app_assoc. split; [done|].
      rewrite List.length_app. split; [lia|].
      intros [Hev Hevs]%andb_true_iff. apply negb_true_iff in Hev.
      rewrite (Hex1 Hev), (Hex2 Hevs). done.
  - revert logs. induction evs as [|ev evs IH]; intros logs Hok; simpl; [done|].
    apply IH. by apply audit_row_ok_fire.
Qed.

End triggers.

Lemma update_with_triggers_audits_updated_at_witness :
  exists fields,
    fst (update_with_triggers JNumber "inventory" 20 example_stamped
           example_stamped []) =
    [] ++ [mk_audit "inventory" (id example_stamped) "UPDATE"
             (Some (to_jsonb example_stamped))
             (Some (<["updated_at" := JNumber 20]> (to_jsonb example_stamped)))
             (Some fields)] /\
    "updated_at" ∈ fields.
Proof.
  apply (proj1 (update_with_triggers_audits_updated_at JNumber "inventory" 20
                  example_stamped example_stamped [])).
  vm_compute. discriminate.
Defined.

Lemma audit_log_append_only_witness :
  Forall audit_row_ok
    (fire_all []
       [("inventory", TG_INSERT example_old);
        ("inventory", TG_UPDATE example_old example_new);
        ("inventory", TG_UPDATE example_new example_new);
        ("inventory", TG_DELETE example_new)]) /\
  length
    (fire_all []
       [("inventory", TG_INSERT example_old);
        ("inventory", TG_UPDATE example_old example_new);
        ("inventory", TG_UPDATE example_new example_new);
        ("inventory", TG_DELETE example_new)]) = 3%nat.
Proof.
  split; [|vm_compute; reflexivity].
  apply (proj2 (audit_log_append_only []
                  [("inventory", TG_INSERT example_old);
                   ("inventory", TG_UPDATE example_old example_new);
                   ("inventory", TG_UPDATE example_new example_new);
                   ("inventory", TG_DELETE example_new)])).
  constructor.
Defined.

End AuditExtProofs.

(** ** The POS module, continued: properties *)
Module POSExtProofs.
Import POS POSExt POSProofs.

Lemma has_id_spec itemId item : has_id itemId item = true <-> id item = itemId.
Proof. unfold has_id. apply String.eqb_eq. Qed.

Lemma find_has_id_none itemId l :
  List.find (has_id itemId) l = None -> itemId ∉ List.map id l.
Proof.
  intros Hn Hin.
  apply list_elem_of_In, List.in_map_iff in Hin as (x & Hx & Hin).
  pose proof (List.find_none _ _ Hn x Hin) as Hf.
  apply has_id_spec in Hx. congruence.
Qed.

Lemma update_first_ids p d l :
  List.map id (update_first p (add_quantity d) l) = List.map id l.
Proof.
  induction l as [|x l IH]; simpl; [done|].
  destruct (p x); simpl; [done|]. by rewrite IH.
Qed.

Lemma nodup_ids_filter (p : cart_item -> bool) l :
  NoDup (List.map id l) -> NoDup (List.map id (List.filter p l)).
Proof.
  induction l as [|x l IH]; simpl; [done|].
  rewrite NoDup_cons. intros [Hx Hl].
  destruct (p x); simpl; [|by apply IH].
  apply NoDup_cons. split; [|by apply IH].
  intros Hin. apply Hx.
  apply list_elem_of_In, List.in_map_iff in Hin as (y & Hy & Hin).
  apply List.filter_In in Hin as [Hin _].
  apply list_elem_of_In, List.in_map_iff. eauto.
Qed.

Lemma cart_ids_apply_op st op :
  NoDup (cart_ids st) -> NoDup (cart_ids (apply_op st op)).
Proof.
  unfold cart_ids. intros Hnd. destruct op as [pid|iid act|iid|]; simpl.
  - unfold addToCart.
    destruct (List.find _ (products st)) as [product|] eqn:Hp; [|done].
    destruct (List.find (has_id pid) (cart st)) as [item|] eqn:Hfind; simpl.
    + by rewrite update_first_ids.
    + rewrite List.map_app. simpl. apply NoDup_app. split; [done|].
      split; [|apply NoDup_singleton].
      intros x Hx ->%list_elem_of_singleton.
      apply List.find_some in Hp as [_ Hp]. apply String.eqb_eq in Hp.
      rewrite Hp in Hx. by apply (find_has_id_none _ _ Hfind).
  - unfold updateQuantity.
    destruct (List.find (has_id iid) (cart st)) as [item|]; [|done].
    destruct (String.eqb act "increase"); simpl; [by rewrite update_first_ids|].
    destruct (String.eqb act "decrease"); [|done].
    destruct (quantity item - 1 <=? 0); simpl.
    + apply nodup_ids_filter. by rewrite update_first_ids.
    + by rewrite update_first_ids.
  - by apply nodup_ids_filter.
  - apply NoDup_nil_2.
Qed.

(** X15: one line per product. No cart operation creates a second line with
    an identifier the cart already has: when the identifiers of the cart
    lines are pairwise distinct they stay so under every operation, and they
    are in every cart built from the empty one. *)
Theorem cart_lines_distinct :
  (forall st op, NoDup (cart_ids st) -> NoDup (cart_ids (apply_op st op))) /\
  (forall st ops, NoDup (cart_ids st) ->
                  NoDup (cart_ids (List.fold_left apply_op ops st))) /\
  (forall products ops,
     NoDup (cart_ids (List.fold_left apply_op ops (mk_pos products [] None)))).
Proof.
  assert (Hrun : forall ops st, NoDup (cart_ids st) ->
                   NoDup (cart_ids (List.fold_left apply_op ops st))).
  { induction ops as [|op ops IH]; intros st Hnd; simpl; [done|].
    apply IH. by apply cart_ids_apply_op. }
  split; [exact cart_ids_apply_op|]. split.
  - intros st ops. apply Hrun.
  - intros products ops. apply Hrun. apply NoDup_nil_2.
Qed.

Lemma cart_lines_distinct_witness :
  NoDup (cart_ids example_cart) /\
  NoDup (cart_ids (List.fold_left apply_op example_ops example_cart)).
Proof.
  assert (H0 : NoDup (cart_ids example_cart)) by apply NoDup_singleton.
  split; [exact H0|].
  exact (proj1 (proj2 cart_lines_distinct) example_cart example_ops H0).
Defined.



Lemma find_update_first itemId d l item :
  List.find (has_id itemId) l = Some item ->
  List.find (has_id itemId) (update_first (has_id itemId) (add_quantity d) l)
  = Some (add_quantity d item).
Proof.
  intros Hfind.
  destruct (update_first_find _ (add_quantity d) _ _ Hfind)
    as (l1 & l2 & _ & -> & Hn).
  rewrite (find_app_none _ _ _ Hn). simpl.
  by rewrite has_id_add_quantity, (find_has_id _ _ _ Hfind).
Qed.




Lemma update_first_twice itemId d1 d2 l :
  update_first (has_id itemId) (add_quantity d2)
    (update_first (has_id itemId) (add_quantity d1) l) =
  update_first (has_id itemId) (fun x => add_quantity d2 (add_quantity d1 x)) l.
Proof.
  induction l as [|x l IH]; simpl; [done|].
  destruct (has_id itemId x) eqn:Hx; simpl.
  - by rewrite has_id_add_quantity, Hx.
  - by rewrite Hx, IH.
Qed.

Lemma update_first_same (p : cart_item -> bool) f l :
  (forall x, f x = x) -> update_first p f l = l.
Proof.
  intros Hf. induction l as [|x l IH]; simpl; [done|].
  destruct (p x); [by rewrite Hf | by rewrite IH].
Qed.

Lemma add_quantity_cancel d item :
  add_quantity (- d) (add_quantity d item) = item.
Proof.
  destruct item as [i n p q t]. unfold add_quantity. simpl. f_equal. lia.
Qed.

Lemma add_quantity_cancel' d item :
  add_quantity d (add_quantity (- d) item) = item.
Proof.
  destruct item as [i n p q t]. unfold add_quantity. simpl. f_equal. lia.
Qed.

Lemma set_cart_same st : set_cart st (cart st) = st.
Proof. by destruct st. Qed.

Lemma filter_update_first itemId d l :
  List.filter (fun i => negb (has_id itemId i))
    (update_first (has_id itemId) (add_quantity d) l) =
  List.filter (fun i => negb (has_id itemId i)) l.
Proof.
  induction l as [|x l IH]; simpl; [done|].
  destruct (has_id itemId x) eqn:Hx; simpl.
  - by rewrite has_id_add_quantity, Hx.
  - by rewrite Hx, IH.
Qed.

Lemma find_filter_out itemId l :
  List.find (has_id itemId) (List.filter (fun i => negb (has_id itemId i)) l) = None.
Proof.
  induction l as [|x l IH]; simpl; [done|].
  destruct (has_id itemId x) eqn:Hx; simpl; [done|]. by rewrite Hx.
Qed.

(** X17: increase and decrease undo each other, except at quantity 1. On a
    cart whose quantities are at least 1, increase followed by decrease of
    the same item gives the cart back. Decrease followed by increase gives
    it back when the line had more than one unit; at one unit the line is
    removed and the increase does not bring it back. *)
Theorem increase_decrease_round_trip st itemId :
  (cart_ok st ->
   updateQuantity (updateQuantity st itemId "increase") itemId "decrease" = st) /\
  (forall item,
     List.find (has_id itemId) (cart st) = Some item -> 1 < quantity item ->
     updateQuantity (updateQuantity st itemId "decrease") itemId "increase" = st) /\
  (forall item,
     List.find (has_id itemId) (cart st) = Some item -> quantity item <= 1 ->
     updateQuantity (updateQuantity st itemId "decrease") itemId "increase"
     = removeFromCart st itemId).
Proof.
  split; [|split].
  - intros Hok. unfold updateQuantity at 2.
    destruct (List.find (has_id itemId) (cart st)) as [item|] eqn:Hfind.
    + simpl. unfold updateQuantity. simpl.
      rewrite (find_update_first _ _ _ _ Hfind). simpl.
      assert (Hq : 1 <= quantity item).
      { apply List.find_some in Hfind as [Hin _].
        by apply (proj1 (List.Forall_forall _ _) Hok). }
      assert ((quantity item + 1 - 1 <=? 0) = false) as ->
        by (apply Z.leb_gt; lia).
      unfold set_cart. simpl. rewrite update_first_twice.
      rewrite update_first_same by (intros x; apply (add_quantity_cancel 1)).
      by destruct st.
    + unfold updateQuantity. by rewrite Hfind.
  - intros item Hfind Hq. unfold updateQuantity at 2. rewrite Hfind. simpl.
    assert ((quantity item - 1 <=? 0) = false) as -> by (apply Z.leb_gt; lia).
    unfold updateQuantity. simpl.
    rewrite (find_update_first _ _ _ _ Hfind). simpl.
    unfold set_cart. simpl. rewrite update_first_twice.
    rewrite update_first_same by (intros x; apply (add_quantity_cancel' 1)).
    by destruct st.
  - intros item Hfind Hq. unfold updateQuantity at 2. rewrite Hfind. simpl.
    assert ((quantity item - 1 <=? 0) = true) as -> by (apply Z.leb_le; lia).
    unfold updateQuantity, removeFromCart. simpl.
    rewrite filter_update_first, find_filter_out. done.
Qed.

Lemma increase_decrease_round_trip_witness :
  updateQuantity (updateQuantity example_cart "1" "increase") "1" "decrease"
  = example_cart /\
  updateQuantity (updateQuantity example_cart "1" "decrease") "1" "increase"
  = example_cart /\
  updateQuantity
    (updateQuantity (mk_pos [] [mk_item "1" "Coffee Latte" 25000 1 "product"] None)
       "1" "decrease") "1" "increase"
  = removeFromCart (mk_pos [] [mk_item "1" "Coffee Latte" 25000 1 "product"] None) "1".
Proof.
  split; [|split].
  - apply (proj1 (increase_decrease_round_trip example_cart "1")).
    constructor; [simpl; lia | constructor].
  - apply (proj1 (proj2 (increase_decrease_round_trip example_cart "1"))
             (mk_item "1" "Coffee Latte" 25000 2 "product"));
      [reflexivity | simpl; lia].
  - apply (proj2 (proj2 (increase_decrease_round_trip
                           (mk_pos [] [mk_item "1" "Coffee Latte" 25000 1 "product"]
                              None) "1"))
             (mk_item "1" "Coffee Latte" 25000 1 "product"));
      [reflexivity | simpl; lia].
Defined.

Lemma find_filter_other itemId other l :
  other <> itemId ->
  List.find (has_id other) (List.filter (fun i => negb (has_id itemId i)) l) =
  List.find (has_id other) l.
Proof.
  intros Hne. induction l as [|x l IH]; simpl; [done|].
  destruct (has_id itemId x) eqn:Hx; simpl.
  - destruct (has_id other x) eqn:Ho; [|done].
    apply has_id_spec in Hx. apply has_id_spec in Ho. congruence.
  - by rewrite IH.
Qed.

Lemma filter_absent itemId l :
  List.find (has_id itemId) l = None ->
  List.filter (fun i => negb (has_id itemId i)) l = l.
Proof.
  induction l as [|x l IH]; simpl; [done|].
  destruct (has_id itemId x) eqn:Hx; simpl; [done|].
  intros Hn. by rewrite IH.
Qed.

(** X18: removing a line. After [removeFromCart] no line of the cart has
    the identifier, the lines of every other identifier are found as
    before, removing again changes nothing, and removing an identifier the
    cart does not have leaves the state as it is. *)
Theorem removeFromCart_lookup st itemId :
  List.find (has_id itemId) (cart (removeFromCart st itemId)) = None /\
  (forall other, other <> itemId ->
     List.find (has_id other) (cart (removeFromCart st itemId)) =
     List.find (has_id other) (cart st)) /\
  removeFromCart (removeFromCart st itemId) itemId = removeFromCart st itemId /\
  (List.find (has_id itemId) (cart st) = None -> removeFromCart st itemId = st).
Proof.
  unfold removeFromCart. simpl. split; [apply find_filter_out|].
  split; [intros other Hne; by apply find_filter_other|]. split.
  - unfold set_cart. simpl. f_equal.
    apply filter_absent, find_filter_out.
  - intros Hn. rewrite (filter_absent _ _ Hn). apply set_cart_same.
Qed.

Lemma removeFromCart_lookup_witness :
  List.find (has_id "2") (cart (removeFromCart example_cart "1")) =
  List.find (has_id "2") (cart example_cart) /\
  removeFromCart example_cart "9" = example_cart.
Proof.
  split.
  - by apply (proj1 (proj2 (removeFromCart_lookup example_cart "1")) "2").
  - by apply (proj2 (proj2 (proj2 (removeFromCart_lookup example_cart "9")))).
Defined.







(** X21: the cart is emptied by a payment exactly when the API accepted it.
    After [completePayment] the state is the cleared one (empty cart, no
    customer, same products) when the amount sufficed, a payment method was
    given and the request resolved; when the request is rejected, the
    method is missing or the amount is short, the cart and the customer are
    kept; without a payment method nothing is sent. *)
Theorem completePayment_clears_only_on_success st value paymentMethod t response :
  ((total t <= number_or_zero value)%Q -> is_Some paymentMethod ->
   response = Resolved ->
   state (completePayment st value paymentMethod t response)
     = mk_pos (products st) [] None) /\
  ((exists message, response = Rejected message) \/ paymentMethod = None \/
   (number_or_zero value < total t)%Q ->
   state (completePayment st value paymentMethod t response) = st) /\
  (paymentMethod = None ->
   requests (completePayment st value paymentMethod t response) = []).
Proof.
  unfold completePayment. split; [|split].
  - intros Hle [method ->] ->.
    destruct (Qlt_le_dec _ _) as [Hlt|_]; [|done].
    exfalso. by apply (Qlt_not_le _ _ Hlt).
  - intros Hcase. destruct (Qlt_le_dec _ _) as [_|Hle]; [done|].
    destruct paymentMethod as [method|]; [|done].
    destruct response; [|done].
    destruct Hcase as [[m Hm] | [Hm | Hlt]]; [done | done |].
    exfalso. by apply (Qlt_not_le _ _ Hlt).
  - intros ->. by destruct (Qlt_le_dec _ _).
Qed.

Lemma completePayment_clears_only_on_success_witness :
  state (completePayment example_cart (Some 60000%Q) (Some (mk_method "1" "cash"))
           (calculateTotals example_cart) Resolved)
    = mk_pos (products example_cart) [] None /\
  state (completePayment example_cart (Some 60000%Q) (Some (mk_method "1" "cash"))
           (calculateTotals example_cart) (Rejected "Network error"))
    = example_cart.
Proof.
  split.
  - apply (proj1 (completePayment_clears_only_on_success example_cart
                    (Some 60000%Q) (Some (mk_method "1" "cash"))
                    (calculateTotals example_cart) Resolved));
      [vm_compute; discriminate | by eexists | reflexivity].
  - apply (proj1 (proj2 (completePayment_clears_only_on_success example_cart
                           (Some 60000%Q) (Some (mk_method "1" "cash"))
                           (calculateTotals example_cart)
                           (Rejected "Network error")))).
    left. by eexists.
Defined.

Lemma or_default_nonempty message fallback :
  fallback <> EmptyString -> or_default message fallback <> EmptyString.
Proof.
  intros Hf. unfold or_default.
  destruct (String.eqb message "") eqn:Hm; [done|].
  by apply String.eqb_neq in Hm.
Qed.

(** X22: holding a transaction. A hold is never sent for an empty cart nor
    after a cancelled prompt, and then the state is kept; a hold that is
    sent carries the cart lines, the totals of the cart and a name that is
    not empty; the cart is cleared when the API accepted the hold and kept
    when it refused. *)
Theorem holdTransaction_outcomes st answer time response :
  (cart st = [] \/ answer = None ->
   hold_requests (holdTransaction st answer time response) = [] /\
   hold_state (holdTransaction st answer time response) = st) /\
  (forall data,
     In data (hold_requests (holdTransaction st answer time response)) ->
     cart st <> [] /\
     hold_items data = cart st /\
     hold_totals data = calculateTotals st /\
     hold_name data <> EmptyString) /\
  (cart st <> [] -> is_Some answer ->
   length (hold_requests (holdTransaction st answer time response)) = 1%nat /\
   hold_state (holdTransaction st answer time response) =
     match response with
     | Resolved => mk_pos (products st) [] None
     | Rejected _ => st
     end).
Proof.
  unfold holdTransaction. split; [|split].
  - intros [-> | ->]; [done|]. by destruct (cart st).
  - intros data. destruct (cart st) as [|x l] eqn:Hcart; [done|].
    destruct answer as [holdName|]; [|done].
    assert (Hname : or_default holdName ("Hold " +:+ time) <> EmptyString).
    { apply or_default_nonempty.
      change ("Hold " +:+ time) with (String "H" ("old " +:+ time)). done. }
    destruct response; simpl; intros [<-|[]]; simpl; by rewrite ?Hcart.
  - intros Hne [holdName ->]. destruct (cart st) as [|x l]; [done|].
    by destruct response.
Qed.

Lemma holdTransaction_outcomes_witness :
  (hold_requests (holdTransaction (mk_pos [] [] None) (Some "table 4") "10.15.00"
                    Resolved) = [] /\
   hold_state (holdTransaction (mk_pos [] [] None) (Some "table 4") "10.15.00"
                 Resolved) = mk_pos [] [] None) /\
  (length (hold_requests (holdTransaction example_cart (Some "") "10.15.00"
                            Resolved)) = 1%nat /\
   hold_state (holdTransaction example_cart (Some "") "10.15.00" Resolved) =
     mk_pos (products example_cart) [] None).
Proof.
  split.
  - apply (proj1 (holdTransaction_outcomes (mk_pos [] [] None) (Some "table 4")
                    "10.15.00" Resolved)). by left.
  - apply (proj2 (proj2 (holdTransaction_outcomes example_cart (Some "")
                           "10.15.00" Resolved))); [done | by eexists].
Defined.

End POSExtProofs.

(** ** The Products and Reports modules: properties *)
Module ProductsProofs.
Import POS Products Reports.






End ProductsProofs.

(** ** The view [v_daily_sales_summary]: properties *)
Module SalesViewProofs.
Import Sequence SalesView.

Lemma aggregate_balance b d g :
  net_sales (aggregate b d g) =
    gross_sales (aggregate b d g) - total_returns (aggregate b d g)
    - other_total g /\
  total_transactions (aggregate b d g) =
    sales_count (aggregate b d g) + returns_count (aggregate b d g)
    + other_count g.
Proof.
  unfold other_total, other_count. simpl.
  induction g as [|t g [IH1 IH2]]; simpl length; simpl sum_of; [done|].
  rewrite Nat2Z.inj_succ.
  unfold is_type in *.
  destruct (String.eqb (transaction_type t) "sale") eqn:Hs;
    destruct (String.eqb (transaction_type t) "return") eqn:Hr; simpl.
  - apply String.eqb_eq in Hs. apply String.eqb_eq in Hr. congruence.
  - lia.
  - lia.
  - lia.
Qed.

Lemma in_view_inv transactions v :
  In v (v_daily_sales_summary transactions) ->
  exists b d,
    v = aggregate b d
          (List.filter (in_group b d) (List.filter is_completed transactions)).
Proof.
  unfold v_daily_sales_summary. intros Hin.
  apply List.in_map_iff in Hin as ([b d] & <- & _). by exists b, d.
Qed.

(** X25: how the columns of a daily summary relate. In every row of the
    view, net sales are gross sales minus returns minus the totals of the
    completed transactions of the group that are neither sales nor returns
    (an exchange is subtracted), and the transaction count is the sales
    count plus the returns count plus the number of those others; a
    transaction that is not completed changes no row. *)
Theorem daily_sales_columns transactions :
  Forall
    (fun v =>
       let g := List.filter (in_group (branch_id v) (transaction_date v))
                  (List.filter is_completed transactions) in
       net_sales v = gross_sales v - total_returns v - other_total g /\
       total_transactions v = sales_count v + returns_count v + other_count g)
    (v_daily_sales_summary transactions) /\
  (forall t, is_completed t = false ->
     v_daily_sales_summary (t :: transactions) =
     v_daily_sales_summary transactions).
Proof.
  split.
  - apply List.Forall_forall. intros v Hin.
    destruct (in_view_inv _ _ Hin) as (b & d & ->).
    exact (aggregate_balance b d _).
  - intros t Ht. unfold v_daily_sales_summary. simpl. by rewrite Ht.
Qed.

Lemma daily_sales_columns_witness :
  is_completed example_draft = false /\
  v_daily_sales_summary (example_draft :: example_sales) =
  v_daily_sales_summary example_sales.
Proof.
  split; [reflexivity|].
  apply (proj2 (daily_sales_columns example_sales) example_draft).
  reflexivity.
Defined.

End SalesViewProofs.

(** ** The API layer: properties *)
Module ApiProofs.
Import Api.

Section api.
Context {json body : Type}.
Variable error_message : json -> string.
Variable session_tokens : json -> option (string * string).
Variable net : list (http_request body) -> http_request body -> fetch_result json.

Lemma getToken_keeps (w : world body) :
  localStorage (getToken w).2 = localStorage w /\
  sent (getToken w).2 = sent w.
Proof. unfold getToken. by destruct (truthy (token w)). Qed.

Lemma refreshToken_sent (w : world body) :
  exists l,
    sent (refreshToken session_tokens net w).2 = sent w ++ l /\
    (length l <= 1)%nat.
Proof.
  unfold refreshToken.
  destruct (localStorage w !! "pos_refresh_token") as [rt|] eqn:Hrt;
    [|exists []; split; [by rewrite app_nil_r|simpl; lia]].
  destruct (String.eqb rt "");
    [exists []; split; [by rewrite app_nil_r|simpl; lia]|].
  simpl.
  exists [refresh_request rt].
  split; [|simpl; lia].
  destruct (net _ _) as [|[] st [d|]]; try done.
  by destruct (session_tokens d) as [[a r]|].
Qed.

(** X26: the token store. A token that was set is the one [getToken]
    gives, also after a page load, when only [localStorage] is left of it;
    after [clearAuth] there is none, again also after a page load;
    [clearAuth] removes the three keys of the session and no other key. *)
Theorem token_store_round_trip (t : string) (w : world body) :
  (getToken (setToken t w)).1 = Some t /\
  (getToken (reload (setToken t w))).1 = Some t /\
  (getToken (clearAuth w)).1 = None /\
  (getToken (reload (clearAuth w))).1 = None /\
  (forall k, k ∈ auth_keys -> localStorage (clearAuth w) !! k = None) /\
  (forall k, k ∉ auth_keys ->
     localStorage (clearAuth w) !! k = localStorage w !! k).
Proof.
  assert (Hclear : localStorage (clearAuth w) !! "pos_token" = None).
  { simpl. rewrite lookup_delete_ne by done.
    rewrite lookup_delete_ne by done. apply lookup_delete_eq. }
  split; [|split; [|split; [|split; [|split]]]].
  - unfold getToken, setToken. simpl.
    destruct (String.eqb t ""); simpl; [|done]. apply lookup_insert_eq.
  - unfold getToken, reload, setToken. simpl. apply lookup_insert_eq.
  - unfold getToken. simpl. exact Hclear.
  - unfold getToken, reload. simpl. exact Hclear.
  - intros k Hk. unfold auth_keys in Hk. simpl.
    apply elem_of_cons in Hk as [->|Hk].
    { rewrite lookup_delete_ne by done.
      rewrite lookup_delete_ne by done. apply lookup_delete_eq. }
    apply elem_of_cons in Hk as [->|Hk].
    { rewrite lookup_delete_ne by done. apply lookup_delete_eq. }
    apply elem_of_cons in Hk as [->|Hk]; [apply lookup_delete_eq|].
    by apply elem_of_nil in Hk.
  - intros k Hk. unfold auth_keys in Hk. simpl.
    rewrite !lookup_delete_ne; [done|..]; intros <-; apply Hk; set_solver.
Qed.

(** With [retry: false] a request is one [fetch] and touches nothing but
    the cached token. *)
Lemma request_no_retry (fuel : nat) endpoint (o : options body) (w : world body) :
  retry o = false ->
  let rq := config endpoint o (getToken w).1 in
  request error_message session_tokens net (S fuel) endpoint o w =
    Some (match net (sent w) rq with
          | Response true _ (Some d) => Returned d
          | Response false _ (Some d) => request_failed error_message d
          | _ => Failed Thrown
          end,
          mk_world (getToken w).2.(token) (localStorage w) (sent w ++ [rq])).
Proof.
  intros Hr rq. subst rq.
  destruct (getToken_keeps w) as [Hl Hs].
  cbn [request]. unfold fetch.
  destruct (getToken w) as [tok w0]. simpl in Hl, Hs |- *.
  rewrite Hl, Hs.
  destruct (net _ _) as [|[] st [d|]]; try done.
  by rewrite Hr, andb_false_r.
Qed.

(** X27: a request comes back after at most three calls of [fetch]. With
    fuel for two nested calls [request] gives an request_outcome; it has then sent
    one, two or three requests after those sent before (the request, the
    refresh, the request again), and exactly one when [retry] is
    [false]. *)
Theorem request_sends_at_most_three (fuel : nat) endpoint
    (o : options body) (w : world body) :
  (2 <= fuel)%nat ->
  exists out w' l,
    request error_message session_tokens net fuel endpoint o w =
      Some (out, w') /\
    sent w' = sent w ++ l /\
    (1 <= length l <= 3)%nat /\
    (retry o = false -> length l = 1%nat).
Proof.
  intros Hfuel.
  destruct fuel as [|fuel]; [lia|].
  destruct (retry o) eqn:Hr.
  2:{ eexists _, _, [_]. split; [by apply request_no_retry|].
      split; [done|]. simpl. split; [lia|done]. }
  destruct (getToken_keeps w) as [Hl Hs].
  cbn [request]. unfold fetch.
  destruct (getToken w) as [tok w0]. simpl in Hl, Hs |- *.
  rewrite Hs.
  destruct (net _ _) as [|[] st [d|]].
  1-3,5: eexists _, _, [_]; split; [done|]; split; [done|];
         simpl; split; [lia|done].
  rewrite Hr, andb_true_r.
  destruct (st =? 401).
  2:{ eexists _, _, [_]. split; [done|]. split; [done|].
      simpl. split; [lia|done]. }
  set (w1 := mk_world _ _ _).
  destruct (refreshToken_sent w1) as (l & Hsent & Hlen).
  destruct (refreshToken session_tokens net w1) as [[] w2] eqn:Href;
    simpl in Hsent.
  - destruct fuel as [|fuel]; [lia|].
    rewrite request_no_retry by done. cbv zeta.
    eexists _, _, (_ :: l ++ [_]). split; [done|].
    simpl. rewrite Hsent. subst w1. simpl.
    split; [by rewrite <- !app_assoc|].
    rewrite length_app. simpl. split; [lia|done].
  - eexists _, _, (_ :: l). split; [done|].
    rewrite Hsent. subst w1. simpl.
    split; [by rewrite <- app_assoc|]. simpl. split; [lia|done].
Qed.




End api.

Lemma token_store_round_trip_witness :
  ("pos_token" ∈ auth_keys) /\
  localStorage (clearAuth example_world) !! "pos_token" = None /\
  ("pos_theme" ∉ auth_keys) /\
  localStorage (clearAuth example_world) !! "pos_theme" =
    localStorage example_world !! "pos_theme".
Proof.
  assert (Hin : "pos_token" ∈ auth_keys) by (apply elem_of_cons; by left).
  assert (Hout : "pos_theme" ∉ auth_keys).
  { unfold auth_keys. intros Hk.
    repeat (apply elem_of_cons in Hk as [Hk|Hk]; [discriminate|]).
    by apply elem_of_nil in Hk. }
  split; [exact Hin|]. split; [|split; [exact Hout|]].
  - exact (proj1 (proj2 (proj2 (proj2 (proj2
             (token_store_round_trip "A1" example_world)))))
             "pos_token" Hin).
  - exact (proj2 (proj2 (proj2 (proj2 (proj2
             (token_store_round_trip "A1" example_world)))))
             "pos_theme" Hout).
Defined.

Lemma request_sends_at_most_three_witness :
  (2 <= 2)%nat /\
  exists out w' l,
    request example_message example_tokens example_net 2 "/transactions"
      example_options example_world = Some (out, w') /\
    sent w' = sent example_world ++ l /\
    (1 <= length l <= 3)%nat /\
    (retry example_options = false -> length l = 1%nat).
Proof.
  split; [lia|].
  apply (request_sends_at_most_three example_message example_tokens
           example_net 2 "/transactions" example_options example_world).
  lia.
Defined.



End ApiProofs.
